(** * A shallow embedding of the chat server [src/app.py]

    The server keeps two module-level dictionaries, [active_rooms] and
    [messages], and reacts to Socket.IO events ([connect], [disconnect],
    [join], [send_message], [webrtc_offer], [webrtc_answer],
    [ice_candidate]).  Every handler is embedded as a computation in a small
    state/output/exception monad over a [Server] state; the theorems at the
    end of the file are about those computations. *)

From Stdlib Require Import String Ascii List Lia.
From stdpp Require Import base option list strings gmap pretty.

Set Warnings "-clear-no-such-hyp".

(** ** Python strings

    A [str] is modelled as a Rocq [string]; its characters stand for code
    points below 256. *)
Module PyStr.

(** [str.isspace] on one character, for the code points below 256: the
    controls 9..13 and 28..31, the space, NEL (133) and NBSP (160). *)
Definition isspace (c : ascii) : bool :=
  let n := nat_of_ascii c in
  (((9 <=? n) && (n <=? 13)) || ((28 <=? n) && (n <=? 32))
   || (n =? 133) || (n =? 160))%nat.

Fixpoint lstrip (s : string) : string :=
  match s with
  | EmptyString => EmptyString
  | String c s' => if isspace c then lstrip s' else s
  end.

Definition rstrip (s : string) : string :=
  String.rev (lstrip (String.rev s)).

(** [s.strip()] *)
Definition strip (s : string) : string := rstrip (lstrip s).

(** [len(s)] *)
Definition len (s : string) : nat := String.length s.

End PyStr.

(** ** Python dictionaries

    A [dict] iterates in insertion order, and the handlers send
    [list(users.values())] to the clients, so a dictionary is an association
    list in insertion order.  Assigning to a key that is present keeps its
    position, assigning to a new key appends it. *)
Abbreviation dict K V := (list (K * V)).

Module Dict.
Section ops.
Context {K : Type} `{EqDecision K} {V : Type}.

(** [d.get(k)] *)
Fixpoint get (k : K) (d : dict K V) : option V :=
  match d with
  | [] => None
  | (k', v) :: d' => if decide (k' = k) then Some v else get k d'
  end.

(** [k in d] *)
Definition mem (k : K) (d : dict K V) : bool :=
  match get k d with Some _ => true | None => false end.

(** [d[k] = v] *)
Fixpoint set (k : K) (v : V) (d : dict K V) : dict K V :=
  match d with
  | [] => [(k, v)]
  | (k', v') :: d' =>
      if decide (k' = k) then (k', v) :: d' else (k', v') :: set k v d'
  end.

(** [del d[k]]; every use in the source is guarded by [k in d], so the
    [KeyError] of an absent key is never raised and is not modelled. *)
Definition del (k : K) (d : dict K V) : dict K V :=
  filter (λ p, p.1 ≠ k) d.

(** In-place mutation of the object stored under [k] (nothing happens
    when no object is stored there). *)
Fixpoint alter (f : V → V) (k : K) (d : dict K V) : dict K V :=
  match d with
  | [] => []
  | (k', v) :: d' =>
      if decide (k' = k) then (k', f v) :: d' else (k', v) :: alter f k d'
  end.

(** [list(d.keys())], [list(d.values())], [list(d.items())] *)
Definition keys (d : dict K V) : list K := d.*1.
Definition values (d : dict K V) : list V := d.*2.
Definition items (d : dict K V) : list (K * V) := d.

End ops.
End Dict.

(** ** Data model *)

(** The attachment descriptor produced by the upload endpoint:
    [{'file_id': .., 'filename': .., 'url': ..}]. *)
Record Attachment := {
  file_id : string;
  filename : string;
  url : string
}.

(** Truth value of [file_info]: [None] is falsy, a descriptor (a dictionary
    with three keys) is truthy. *)
Definition truthy (file_info : option Attachment) : bool :=
  match file_info with
  | Some _ => true
  | None => false
  end.

(** [message_data] of [handle_message]. *)
Record Message := {
  msg_id : string;
  msg_username : string;
  msg_message : string;
  msg_timestamp : string;
  msg_file : option Attachment
}.

(** The value a handler returns to the caller (the acknowledgement). *)
Inductive Ack :=
| AckSuccess
| AckError (message : string).

Definition InvalidUsername : Ack := AckError "Username must be 2-20 characters".
Definition UsernameTaken : Ack := AckError "Username already taken".
Definition NotInRoom : Ack := AckError "Not in room".
Definition EmptyMessage : Ack := AckError "Message cannot be empty".

(** Inbound event data.  A field is [None] when the client left it out;
    the opaque WebRTC payloads are carried as their serialised text. *)
Record JoinData := {
  join_username : option string;
  join_room_id : option string
}.

Record SendData := {
  send_room_id : option string;
  send_message : option string;
  send_file : option Attachment
}.

Record OfferData := {
  offer_target_sid : option string;
  offer_offer : option string;
  offer_room_id : option string
}.

Record AnswerData := {
  answer_target_sid : option string;
  answer_answer : option string
}.

Record CandidateData := {
  candidate_target_sid : option string;
  candidate_candidate : option string
}.

(** Outbound events, one constructor per [emit] call of the source, with
    the fields of the emitted dictionary in source order. *)
Inductive Payload :=
| JoinConfirmation (username room_id : string) (users : list string)
    (msgs : list Message)
| UserJoined (username message : string) (users : list string)
    (timestamp : string)
| UserLeft (username message timestamp : string) (users : list string)
| NewMessage (m : Message)
| WebrtcOffer (offer : option string) (caller_sid caller_username : string)
| WebrtcAnswer (answer : option string) (sender_sid : string)
| IceCandidate (candidate : option string) (sender_sid : string).

Definition event_name (p : Payload) : string :=
  match p with
  | JoinConfirmation _ _ _ _ => "join_confirmation"
  | UserJoined _ _ _ _ => "user_joined"
  | UserLeft _ _ _ _ => "user_left"
  | NewMessage _ => "new_message"
  | WebrtcOffer _ _ _ => "webrtc_offer"
  | WebrtcAnswer _ _ => "webrtc_answer"
  | IceCandidate _ _ => "ice_candidate"
  end.

(** The username an outbound signaling event tells its receiver about. *)
Definition sender_username (p : Payload) : option string :=
  match p with
  | WebrtcOffer _ _ caller_username => Some caller_username
  | _ => None
  end.

(** One event pushed to one connection. *)
Definition Delivery : Type := string * Payload.

(** ** Server state *)

(** The module-level dictionaries of the source, the Socket.IO registry
    ([connected] sessions and the rooms they entered), and how often the
    clock and the UUID generator have been consulted. *)
Record Server := {
  active_rooms : dict string (dict string string);
  messages : dict string (list Message);
  connected : gset string;
  sio_rooms : gmap string (gset string);
  clock_reads : nat;
  uuid_draws : nat
}.

Definition init : Server := {|
  active_rooms := [];
  messages := [];
  connected := ∅;
  sio_rooms := ∅;
  clock_reads := 0;
  uuid_draws := 0
|}.

Definition with_active_rooms (ar : dict string (dict string string))
    (st : Server) : Server :=
  {| active_rooms := ar; messages := messages st; connected := connected st;
     sio_rooms := sio_rooms st; clock_reads := clock_reads st;
     uuid_draws := uuid_draws st |}.

Definition with_messages (ms : dict string (list Message))
    (st : Server) : Server :=
  {| active_rooms := active_rooms st; messages := ms;
     connected := connected st; sio_rooms := sio_rooms st;
     clock_reads := clock_reads st; uuid_draws := uuid_draws st |}.

(** The store the handlers consult: membership and history. *)
Definition store (st : Server)
    : dict string (dict string string) * dict string (list Message) :=
  (active_rooms st, messages st).

(** *** The Socket.IO room registry

    Flask-SocketIO addresses every [emit] to a room.  A session sits in a
    personal room named by its own sid from connect to disconnect, and in
    every room it entered with [join_room]; sids and room names share one
    name space. *)
Definition participants (room : string) (st : Server) : gset string :=
  default ∅ (sio_rooms st !! room).

(** The sessions an event addressed to [to] reaches.  Flask-SocketIO hands
    the address on as [to or room]: the empty string, being falsy, is no
    address at all there, and the event goes to every connected session. *)
Definition audience (to : string) (st : Server) : gset string :=
  if bool_decide (to = "") then connected st else participants to st.

Definition enter_room (sid room : string) (st : Server) : Server :=
  {| active_rooms := active_rooms st; messages := messages st;
     connected := connected st;
     sio_rooms := <[room := {[sid]} ∪ participants room st]> (sio_rooms st);
     clock_reads := clock_reads st; uuid_draws := uuid_draws st |}.

(** A new session: registered, and entered into its personal room. *)
Definition sio_connect (sid : string) (st : Server) : Server :=
  let st' := enter_room sid sid st in
  {| active_rooms := active_rooms st'; messages := messages st';
     connected := {[sid]} ∪ connected st'; sio_rooms := sio_rooms st';
     clock_reads := clock_reads st'; uuid_draws := uuid_draws st' |}.

(** The session is gone: unregistered, and taken out of every room. *)
Definition sio_disconnect (sid : string) (st : Server) : Server :=
  {| active_rooms := active_rooms st; messages := messages st;
     connected := connected st ∖ {[sid]};
     sio_rooms := (λ ps, ps ∖ {[sid]}) <$> sio_rooms st;
     clock_reads := clock_reads st; uuid_draws := uuid_draws st |}.

(** ** The handler monad *)

Inductive Exn :=
| KeyError (key : string)
| ValueError (message : string).

Inductive Outcome (A : Type) :=
| Return (a : A)
| Raise (e : Exn).
Arguments Return {A} a.
Arguments Raise {A} e.

(** A handler runs for one request (whose [request.sid] it can read),
    mutates the server state, pushes events, and returns or raises. *)
Definition Handler (A : Type) : Type :=
  string → Server → Outcome A * Server * list Delivery.

Definition ret {A} (a : A) : Handler A := λ _ st, (Return a, st, []).

Definition bind {A B} (m : Handler A) (f : A → Handler B) : Handler B :=
  λ sid st,
    match m sid st with
    | (Return a, st', out) =>
        match f a sid st' with
        | (r, st'', out') => (r, st'', out ++ out')
        end
    | (Raise e, st', out) => (Raise e, st', out)
    end.

Declare Scope handler_scope.
Delimit Scope handler_scope with handler.
Notation "x <- m ;; k" := (bind m (λ x, k))
  (at level 100, m at next level, right associativity) : handler_scope.
Notation "m ;; k" := (bind m (λ _, k))
  (at level 100, right associativity) : handler_scope.

Definition raise {A} (e : Exn) : Handler A := λ _ st, (Raise e, st, []).

Definition request_sid : Handler string := λ sid st, (Return sid, st, []).

Definition read {A} (f : Server → A) : Handler A :=
  λ _ st, (Return (f st), st, []).

Definition modify (f : Server → Server) : Handler unit :=
  λ _ st, (Return (), f st, []).

(** [for x in xs: body(x)] *)
Fixpoint for_each {A} (xs : list A) (body : A → Handler unit) : Handler unit :=
  match xs with
  | [] => ret ()
  | x :: xs' => bind (body x) (λ _, for_each xs' body)
  end.

(** [d[k]] as an expression: raises [KeyError] when [k] is absent. *)
Definition getitem {V} (k : string) (d : dict string V) : Handler V :=
  match Dict.get k d with
  | Some v => ret v
  | None => raise (KeyError k)
  end.

(** [l[-n:]] for a positive [n]: the last [n] elements, all of them when
    the list is shorter. *)
Definition last_n {A} (n : nat) (l : list A) : list A :=
  drop (length l - n) l.

(** The clock and the UUID generator are the environment's: the [k]-th
    reading of each is whatever the world supplies. *)
Record World := {
  clock : nat → string;
  uuid_gen : nat → string
}.

Section handlers.
Context (W : World).
Open Scope handler_scope.

(** [datetime.now().isoformat()] *)
Definition now : Handler string :=
  λ _ st,
    (Return (clock W (clock_reads st)),
     {| active_rooms := active_rooms st; messages := messages st;
        connected := connected st; sio_rooms := sio_rooms st;
        clock_reads := S (clock_reads st); uuid_draws := uuid_draws st |},
     []).

(** [str(uuid.uuid4())] *)
Definition uuid4 : Handler string :=
  λ _ st,
    (Return (uuid_gen W (uuid_draws st)),
     {| active_rooms := active_rooms st; messages := messages st;
        connected := connected st; sio_rooms := sio_rooms st;
        clock_reads := clock_reads st; uuid_draws := S (uuid_draws st) |},
     []).

(** Flask-SocketIO's [emit(event, payload, room=.., include_self=..)]:
    without a room (or with [room=None]) the event goes to the room named
    [request.sid]; every session of the [audience] of the address gets the
    event (all connected sessions when the address is the empty string),
    the sender excepted when [include_self] is false.  A room is a set of
    sessions: the order in which they are served is not modelled. *)
Definition emit (p : Payload) (room : option string) (include_self : bool)
    : Handler unit :=
  λ sid st,
    let to := default sid room in
    let rcpts :=
      filter (λ s, include_self = true ∨ s ≠ sid)
             (elements (audience to st)) in
    (Return (), st, (λ s, (s, p)) <$> rcpts).

(** Flask-SocketIO's [join_room(room)].  The personal room of a live
    session cannot be entered: when [room] is the sid of a connected
    session the call raises [ValueError]. *)
Definition join_room (room : string) : Handler unit :=
  λ sid st,
    if bool_decide (room ∈ connected st)
    then (Raise (ValueError "cannot enter a sid room"), st, [])
    else (Return (), enter_room sid room st, []).

(** *** [handle_connect] (lines 82-84): prints, nothing else. *)
Definition handle_connect : Handler unit := ret ().

(** *** [handle_disconnect] (lines 86-108)

    The loop runs over a snapshot of [active_rooms.items()]; [users] is
    the dictionary object stored under [room_id], so [del users[sid]]
    changes the entry of [active_rooms] in place.  [disconnect_room] is
    the loop body (lines 91-108). *)
Definition disconnect_room (room_id : string) (users : dict string string)
    : Handler unit :=
  sid <- request_sid ;;
  match Dict.get sid users with
  | Some username =>
      let users' := Dict.del sid users in
      modify (λ st, with_active_rooms
                      (Dict.alter (λ _, users') room_id (active_rooms st))
                      st) ;;
      match users' with
      | _ :: _ =>
          ts <- now ;;
          emit (UserLeft username (username +:+ " has left the room") ts
                  (Dict.values users'))
               (Some room_id) true
      | [] =>
          modify (λ st, if Dict.mem room_id (active_rooms st)
                        then with_active_rooms
                               (Dict.del room_id (active_rooms st)) st
                        else st) ;;
          modify (λ st, if Dict.mem room_id (messages st)
                        then with_messages
                               (Dict.del room_id (messages st)) st
                        else st)
      end
  | None => ret ()
  end.

Definition handle_disconnect : Handler unit :=
  snapshot <- read active_rooms ;;
  for_each (Dict.items snapshot)
           (λ '(room_id, users), disconnect_room room_id users).

(** *** [on_join] (lines 110-147) *)
Definition on_join (data : JoinData) : Handler Ack :=
  let username := PyStr.strip (default "" (join_username data)) in
  let room_id := default "lobby" (join_room_id data) in
  if bool_decide (username = "") || (PyStr.len username <? 2)%nat
     || (20 <? PyStr.len username)%nat
  then ret InvalidUsername
  else
    rooms <- read active_rooms ;;
    (if Dict.mem room_id rooms then ret ()
     else
       modify (λ st, with_active_rooms
                       (Dict.set room_id [] (active_rooms st)) st) ;;
       modify (λ st, with_messages
                       (Dict.set room_id [] (messages st)) st)) ;;
    rooms <- read active_rooms ;;
    users <- getitem room_id rooms ;;
    if bool_decide (username ∈ Dict.values users)
    then ret UsernameTaken
    else
      sid <- request_sid ;;
      modify (λ st, with_active_rooms
                      (Dict.alter (Dict.set sid username) room_id
                                  (active_rooms st)) st) ;;
      join_room room_id ;;
      rooms <- read active_rooms ;;
      users <- getitem room_id rooms ;;
      history <- read messages ;;
      msgs <- getitem room_id history ;;
      emit (JoinConfirmation username room_id (Dict.values users)
              (last_n 50 msgs))
           None true ;;
      rooms <- read active_rooms ;;
      users <- getitem room_id rooms ;;
      ts <- now ;;
      emit (UserJoined "System" (username +:+ " has joined the room")
              (Dict.values users) ts)
           (Some room_id) false ;;
      ret AckSuccess.

(** *** [handle_message] (lines 149-176)

    [room_id] is [None] when the client left it out, and [None] is no key
    of [active_rooms]; a present attachment descriptor is a non-empty
    dictionary, hence truthy. *)
Definition handle_message (data : SendData) : Handler Ack :=
  let message := PyStr.strip (default "" (send_message data)) in
  let file_info := send_file data in
  sid <- request_sid ;;
  rooms <- read active_rooms ;;
  match send_room_id data with
  | None => ret NotInRoom
  | Some room_id =>
      match Dict.get room_id rooms with
      | None => ret NotInRoom
      | Some users =>
          match Dict.get sid users with
          | None => ret NotInRoom
          | Some username =>
              if bool_decide (message = "") && negb (truthy file_info)
              then ret EmptyMessage
              else
                id <- uuid4 ;;
                ts <- now ;;
                let message_data :=
                  {| msg_id := id; msg_username := username;
                     msg_message := message; msg_timestamp := ts;
                     msg_file := file_info |} in
                history <- read messages ;;
                msgs <- getitem room_id history ;;
                modify (λ st, with_messages
                                (Dict.alter (λ l, l ++ [message_data])
                                            room_id (messages st)) st) ;;
                emit (NewMessage message_data) (Some room_id) true ;;
                ret AckSuccess
          end
      end
  end.

(** *** [handle_offer] (lines 179-189) *)
Definition handle_offer (data : OfferData) : Handler unit :=
  sid <- request_sid ;;
  rooms <- read active_rooms ;;
  let caller_username :=
    default "Someone"
      (Dict.get sid
         (default [] (Dict.get (default "" (offer_room_id data)) rooms))) in
  emit (WebrtcOffer (offer_offer data) sid caller_username)
       (offer_target_sid data) true.

(** *** [handle_answer] (lines 191-199) *)
Definition handle_answer (data : AnswerData) : Handler unit :=
  sid <- request_sid ;;
  emit (WebrtcAnswer (answer_answer data) sid) (answer_target_sid data) true.

(** *** [handle_ice_candidate] (lines 201-209) *)
Definition handle_ice_candidate (data : CandidateData) : Handler unit :=
  sid <- request_sid ;;
  emit (IceCandidate (candidate_candidate data) sid)
       (candidate_target_sid data) true.

End handlers.

(** ** The server as a transition system *)

(** What the transport hands to the server. *)
Inductive Event :=
| EvConnect (sid : string)
| EvDisconnect (sid : string)
| EvJoin (sid : string) (data : JoinData)
| EvSendMessage (sid : string) (data : SendData)
| EvOffer (sid : string) (data : OfferData)
| EvAnswer (sid : string) (data : AnswerData)
| EvIceCandidate (sid : string) (data : CandidateData).

(** State and pushed events after a handler ran for [sid]. *)
Definition run {A} (h : Handler A) (sid : string) (st : Server)
    : Server * list Delivery :=
  ((h sid st).1.2, (h sid st).2).

(** One event.  A connecting session is registered before its handler
    runs; a disconnecting one leaves the registry after its handler ran. *)
Definition step (W : World) (e : Event) (st : Server)
    : Server * list Delivery :=
  match e with
  | EvConnect sid => run handle_connect sid (sio_connect sid st)
  | EvDisconnect sid =>
      let r := run (handle_disconnect W) sid st in
      (sio_disconnect sid r.1, r.2)
  | EvJoin sid data => run (on_join W data) sid st
  | EvSendMessage sid data => run (handle_message W data) sid st
  | EvOffer sid data => run (handle_offer data) sid st
  | EvAnswer sid data => run (handle_answer data) sid st
  | EvIceCandidate sid data => run (handle_ice_candidate data) sid st
  end.

(** Session ids are not empty and unique among live sessions, and only
    live sessions send events. *)
Definition enabled (e : Event) (st : Server) : Prop :=
  match e with
  | EvConnect sid => sid ≠ "" ∧ sid ∉ connected st
  | EvDisconnect sid | EvJoin sid _ | EvSendMessage sid _
  | EvOffer sid _ | EvAnswer sid _ | EvIceCandidate sid _ =>
      sid ∈ connected st
  end.

Inductive reaches (W : World) : Server → Server → Prop :=
| reaches_refl st : reaches W st st
| reaches_step st st' e :
    reaches W st st' → enabled e st' → reaches W st (step W e st').1.

Definition reachable (W : World) (st : Server) : Prop := reaches W init st.

(** ** The handlers' effects, named

    The states and outputs the handlers produce, as plain functions of the
    state; the lemmas [on_join_run], [handle_message_run] and
    [handle_disconnect_run] below relate them to the handlers. *)

(** Lines 118-121 of [on_join]: the room is created when it is absent. *)
Definition join_create (room_id : string) (st : Server) : Server :=
  if Dict.mem room_id (active_rooms st) then st
  else with_messages (Dict.set room_id [] (messages st))
         (with_active_rooms (Dict.set room_id [] (active_rooms st)) st).

(** Line 128 of [on_join]: the member is recorded. *)
Definition join_record (sid username room_id : string) (st : Server)
    : Server :=
  with_active_rooms
    (Dict.alter (Dict.set sid username) room_id (active_rooms st)) st.

(** Lines 128-129 of [on_join]: the member is recorded and enters the
    Socket.IO room. *)
Definition join_add (sid username room_id : string) (st : Server) : Server :=
  enter_room sid room_id (join_record sid username room_id st).

(** The state after one more reading of the clock. *)
Definition tick (st : Server) : Server :=
  {| active_rooms := active_rooms st; messages := messages st;
     connected := connected st; sio_rooms := sio_rooms st;
     clock_reads := S (clock_reads st); uuid_draws := uuid_draws st |}.

(** The state after one more UUID was drawn. *)
Definition draw (st : Server) : Server :=
  {| active_rooms := active_rooms st; messages := messages st;
     connected := connected st; sio_rooms := sio_rooms st;
     clock_reads := clock_reads st; uuid_draws := S (uuid_draws st) |}.

(** The sessions an [emit] to [room] reaches. *)
Definition recipients (room sid : string) (include_self : bool) (st : Server)
    : list string :=
  filter (λ s, include_self = true ∨ s ≠ sid) (elements (audience room st)).

Definition deliver (p : Payload) (rcpts : list string) : list Delivery :=
  (λ s, (s, p)) <$> rcpts.

(** The trimmed username and the room of a join request. *)
Definition join_name (data : JoinData) : string :=
  PyStr.strip (default "" (join_username data)).
Definition join_room_of (data : JoinData) : string :=
  default "lobby" (join_room_id data).

(** The check of line 115. *)
Definition bad_username (username : string) : bool :=
  bool_decide (username = "") || (PyStr.len username <? 2)%nat
  || (20 <? PyStr.len username)%nat.

(** The message built by lines 161-168 of [handle_message]. *)
Definition new_message (W : World) (st : Server) (username : string)
    (data : SendData) : Message :=
  {| msg_id := uuid_gen W (uuid_draws st);
     msg_username := username;
     msg_message := PyStr.strip (default "" (send_message data));
     msg_timestamp := clock W (clock_reads st);
     msg_file := send_file data |}.

(** The check of line 158. *)
Definition empty_message (data : SendData) : bool :=
  bool_decide (PyStr.strip (default "" (send_message data)) = "")
  && negb (truthy (send_file data)).

(** Line 171 of [handle_message]. *)
Definition append_message (room_id : string) (m : Message) (st : Server)
    : Server :=
  with_messages (Dict.alter (λ l, l ++ [m]) room_id (messages st)) st.

(** The name a [webrtc_offer] carries for its sender: looked up in the room
    the request names (the empty name when it names none). *)
Definition caller_username (data : OfferData) (sid : string) (st : Server)
    : string :=
  default "Someone"
    (Dict.get sid
       (default [] (Dict.get (default "" (offer_room_id data))
                             (active_rooms st)))).

(** What the loop body leaves of one room: the room without the session,
    or nothing when the session was its only member. *)
Definition purge_room (sid : string) (entry : string * dict string string)
    : option (string * dict string string) :=
  match Dict.get sid entry.2 with
  | Some _ =>
      match Dict.del sid entry.2 with
      | [] => None
      | users' => Some (entry.1, users')
      end
  | None => Some entry
  end.

Definition purge (sid : string) (ar : dict string (dict string string))
    : dict string (dict string string) :=
  omap (purge_room sid) ar.

(** The rooms a disconnect of [sid] empties. *)
Definition emptied (sid : string) (ar : dict string (dict string string))
    : list string :=
  (filter (λ e, purge_room sid e = None) ar).*1.

(** ** The invariant of the reachable states *)

(** [sid] is recorded as a member of room [room_id]. *)
Definition member (sid room_id : string) (st : Server) : Prop :=
  ∃ users, Dict.get room_id (active_rooms st) = Some users
           ∧ is_Some (Dict.get sid users).

(** What holds of every state the server reaches from [init]. *)
Record Inv (W : World) (st : Server) : Prop := {
  (** the two tables have the same rooms, in the same order *)
  inv_keys : Dict.keys (active_rooms st) = Dict.keys (messages st);
  inv_nodup : NoDup (Dict.keys (active_rooms st));
  (** no room is empty *)
  inv_nonempty : ∀ room_id users,
    Dict.get room_id (active_rooms st) = Some users → users ≠ [];
  (** members are live sessions *)
  inv_live : ∀ room_id sid, member sid room_id st → sid ∈ connected st;
  (** the Socket.IO room [room] holds nobody but the live session named
      [room] and live members of the chat room [room] *)
  inv_registry : ∀ room sid,
    sid ∈ participants room st →
    sid ∈ connected st ∧ (sid = room ∨ member sid room st);
  (** a live session sits in its personal room, and its id is not empty *)
  inv_self : ∀ sid, sid ∈ connected st → sid ∈ participants sid st;
  inv_sid : "" ∉ connected st;
  (** every stored message carries a UUID drawn earlier *)
  inv_ids : ∀ room_id h m,
    Dict.get room_id (messages st) = Some h → m ∈ h →
    ∃ k, k < uuid_draws st ∧ msg_id m = uuid_gen W k
}.

(** Projections of the state out of the state transformers. *)
Tactic Notation "fields" :=
  cbn [active_rooms messages connected sio_rooms clock_reads uuid_draws
       with_active_rooms with_messages enter_room sio_connect sio_disconnect
       tick draw].
Tactic Notation "fields" "in" hyp(H) :=
  cbn [active_rooms messages connected sio_rooms clock_reads uuid_draws
       with_active_rooms with_messages enter_room sio_connect sio_disconnect
       tick draw] in H.

(** The state a successful join leaves. *)
Definition joined (sid username room_id : string) (st : Server) : Server :=
  tick (join_add sid username room_id (join_create room_id st)).

(** The state a join leaves when [join_room] raises: the member is recorded
    (line 128), the session did not enter the Socket.IO room (line 129). *)
Definition recorded (sid username room_id : string) (st : Server) : Server :=
  join_record sid username room_id (join_create room_id st).

(** The members and the history of a room, empty when the room is absent. *)
Definition members_of (room_id : string) (st : Server) : dict string string :=
  default [] (Dict.get room_id (active_rooms st)).
Definition history_of (room_id : string) (st : Server) : list Message :=
  default [] (Dict.get room_id (messages st)).

(** The name under which [sid] is recorded in room [room_id]. *)
Definition username_in (room_id : option string) (sid : string) (st : Server)
    : option string :=
  room_id ≫= λ r, Dict.get r (active_rooms st) ≫= Dict.get sid.

(** The state a successful send leaves. *)
Definition sent (W : World) (room_id username : string) (data : SendData)
    (st : Server) : Server :=
  append_message room_id (new_message W st username data) (tick (draw st)).

(** ** Notions the claims are stated with *)

(** The two calls that can fail validation. *)
Inductive Call :=
| CallJoin (data : JoinData)
| CallSend (data : SendData).

Definition call (W : World) (c : Call) : Handler Ack :=
  match c with
  | CallJoin data => on_join W data
  | CallSend data => handle_message W data
  end.

(** No connection is recorded in two rooms. *)
Definition at_most_one_room (st : Server) : Prop :=
  ∀ sid r1 r2, member sid r1 st → member sid r2 st → r1 = r2.

(** The name under which [sid] is recorded in the first room that has it
    as a member. *)
Definition current_username (sid : string) (st : Server) : option string :=
  head (omap (λ e, Dict.get sid e.2) (active_rooms st)).

(** ** Traces and example states *)

(** Running a whole trace. *)
Definition exec (W : World) (tr : list Event) (st : Server) : Server :=
  foldl (λ s e, (step W e s).1) st tr.

(** [enabled], as a test. *)
Definition enabledb (e : Event) (st : Server) : bool :=
  match e with
  | EvConnect sid => bool_decide (sid ≠ "" ∧ sid ∉ connected st)
  | EvDisconnect sid | EvJoin sid _ | EvSendMessage sid _
  | EvOffer sid _ | EvAnswer sid _ | EvIceCandidate sid _ =>
      bool_decide (sid ∈ connected st)
  end.

(** Every event of the trace is enabled when its turn comes. *)
Fixpoint valid (W : World) (tr : list Event) (st : Server) : bool :=
  match tr with
  | [] => true
  | e :: tr' => enabledb e st && valid W tr' (step W e st).1
  end.

(** A world for examples: the [k]-th timestamp and the [k]-th UUID are the
    decimal numeral of [k]. *)
Definition demo_world : World :=
  {| clock := λ k, pretty k; uuid_gen := λ k, pretty k |}.

(** Alice is in room r1. *)
Definition c1_state : Server :=
  exec demo_world
    [EvConnect "s1";
     EvJoin "s1" {| join_username := Some "alice";
                    join_room_id := Some "r1" |}]
    init.

Definition c1_join : JoinData :=
  {| join_username := Some "alice"; join_room_id := Some "r2" |}.

(** Alice and Bob are in room r1. *)
Definition demo_state : Server :=
  exec demo_world
    [EvConnect "s1"; EvConnect "s2";
     EvJoin "s1" {| join_username := Some "alice";
                    join_room_id := Some "r1" |};
     EvJoin "s2" {| join_username := Some "bob";
                    join_room_id := Some "r1" |}]
    init.

(** Alice joins room r1 and sends 60 messages; then Bob joins. *)
Definition c7_state : Server :=
  exec demo_world
    ([EvConnect "s1"; EvConnect "s2";
      EvJoin "s1" {| join_username := Some "alice";
                     join_room_id := Some "r1" |}]
     ++ replicate 60
          (EvSendMessage "s1" {| send_room_id := Some "r1";
                                 send_message := Some "hi";
                                 send_file := None |}))
    init.





(** ** The file upload endpoint (lines 8-79)

    The HTTP side of the application: [allowed_file] and [upload_file],
    with the upload folder and werkzeug's [secure_filename] taken from the
    environment. *)

Module PyText.

(** [c.lower()] on one character, for the code points below 256: the
    letters A..Z and the Latin-1 capitals 192..222 (the multiplication sign
    215 excepted) move up by 32. *)
Definition lower_char (c : ascii) : ascii :=
  let n := nat_of_ascii c in
  if (((65 <=? n) && (n <=? 90))
      || ((192 <=? n) && (n <=? 222) && negb (n =? 215)))%nat
  then ascii_of_nat (n + 32) else c.

(** [s.lower()] *)
Fixpoint lower (s : string) : string :=
  match s with
  | EmptyString => EmptyString
  | String c s' => String (lower_char c) (lower s')
  end.

(** [c in s] for a one-character [c] *)
Fixpoint contains (c : ascii) (s : string) : bool :=
  match s with
  | EmptyString => false
  | String c' s' => bool_decide (c' = c) || contains c s'
  end.

(** [s.rsplit(sep, 1)] for a one-character [sep]: the text before and the
    text after the last [sep], or [s] alone when it has no [sep]. *)
Fixpoint rsplit1 (sep : ascii) (s : string) : list string :=
  match s with
  | EmptyString => [EmptyString]
  | String c s' =>
      match rsplit1 sep s' with
      | [tl] => if decide (c = sep) then [EmptyString; tl] else [String c tl]
      | hd :: rest => String c hd :: rest
      | [] => []
      end
  end.

(** [s.startswith(c)] and [s.endswith(c)] for a one-character [c] *)
Definition startswith (c : ascii) (s : string) : bool :=
  match s with
  | String c' _ => bool_decide (c' = c)
  | EmptyString => false
  end.

Fixpoint endswith (c : ascii) (s : string) : bool :=
  match s with
  | EmptyString => false
  | String c' EmptyString => bool_decide (c' = c)
  | String _ s' => endswith c s'
  end.

(** [os.path.join(a, b)] on POSIX: an absolute [b] replaces [a]; otherwise
    the two are joined by one slash, none when [a] is empty or ends in
    one. *)
Definition path_join (a b : string) : string :=
  if startswith "/" b then b
  else if bool_decide (a = "") || endswith "/" a then a +:+ b
  else a +:+ "/" +:+ b.

End PyText.

(** [ALLOWED_EXTENSIONS] (line 10); a set in the source, used for
    membership only. *)
Definition ALLOWED_EXTENSIONS : list string :=
  ["txt"; "pdf"; "doc"; "docx"; "xls"; "xlsx"; "ppt"; "pptx"; "jpg"; "jpeg";
   "png"; "gif"; "mp3"; "mp4"; "zip"; "rar"].

(** [allowed_file] (lines 35-37).  The index [1] of the split is only
    evaluated when the name has a dot, so it never fails. *)
Definition allowed_file (filename : string) : bool :=
  PyText.contains "." filename
  && match PyText.rsplit1 "." filename !! 1 with
     | Some ext => bool_decide (PyText.lower ext ∈ ALLOWED_EXTENSIONS)
     | None => false
     end.

(** One entry of [request.files]: the client's file name and the bytes. *)
Record Upload := {
  up_filename : string;
  up_content : string
}.

(** One value of [file_uploads] (lines 62-66). *)
Record FileMeta := {
  meta_path : string;
  meta_filename : string;
  meta_uploaded_at : string
}.

(** What the deployment fixes: [UPLOAD_FOLDER] (line 9, it depends on the
    working directory) and werkzeug's [secure_filename]. *)
Record Site := {
  upload_folder : string;
  secure_filename : string → string
}.

(** The whole application state: the chat server, the upload metadata
    table [file_uploads] (line 33) and the files written to disk, by
    path. *)
Record App := {
  server : Server;
  file_uploads : dict string FileMeta;
  disk : dict string string
}.

(** The HTTP responses of [upload_file]: the JSON of lines 68-72 with
    status 200, or an error with status 400. *)
Inductive Response :=
| Ok200 (file_id filename url : string)
| Error400 (error : string).

(** [upload_file] (lines 45-74).  [file] is [request.files.get('file')];
    a [FileStorage] whose name is not empty is truthy.  The two UUIDs and
    the timestamp come from the same generator and clock as the chat's.
    Requests above [MAX_CONTENT_LENGTH] do not get this far: Flask refuses
    them when [request.files] is read. *)
Definition upload_file (W : World) (site : Site) (file : option Upload)
    (app : App) : Response * App :=
  match file with
  | None => (Error400 "No file part", app)
  | Some file =>
      if bool_decide (up_filename file = "")
      then (Error400 "No selected file", app)
      else if allowed_file (up_filename file)
      then
        let filename := secure_filename site (up_filename file) in
        let st := server app in
        let unique_filename :=
          uuid_gen W (uuid_draws st) +:+ "_" +:+ filename in
        let filepath :=
          PyText.path_join (upload_folder site) unique_filename in
        let disk' := Dict.set filepath (up_content file) (disk app) in
        let file_id := uuid_gen W (S (uuid_draws st)) in
        let meta :=
          {| meta_path := filepath; meta_filename := filename;
             meta_uploaded_at := clock W (clock_reads st) |} in
        (Ok200 file_id filename ("/uploads/" +:+ unique_filename),
         {| server := tick (draw (draw st));
            file_uploads := Dict.set file_id meta (file_uploads app);
            disk := disk' |})
      else (Error400 "File type not allowed", app)
  end.

(** ** More notions for the chat handlers *)

(** The events [handle_disconnect] pushes for [sid], room by room of the
    snapshot [rest]: a [user_left] to the audience [aud] of every room that
    keeps a member, each with its own reading of the clock. *)
Fixpoint disconnect_out (W : World) (sid : string)
    (aud : string → gset string) (reads : nat)
    (rest : dict string (dict string string)) : list Delivery :=
  match rest with
  | [] => []
  | (room_id, users) :: rest' =>
      match Dict.get sid users with
      | None => disconnect_out W sid aud reads rest'
      | Some username =>
          match Dict.del sid users with
          | [] => disconnect_out W sid aud reads rest'
          | users' =>
              deliver (UserLeft username (username +:+ " has left the room")
                         (clock W reads) (Dict.values users'))
                      (elements (aud room_id))
              ++ disconnect_out W sid aud (S reads) rest'
          end
      end
  end.

(** A string that [strip] leaves as it is. *)
Definition trimmed (s : string) : Prop := PyStr.strip s = s.

(** A name [on_join] accepts: trimmed, of 2 to 20 characters. *)
Definition valid_name (s : string) : Prop :=
  trimmed s ∧ 2 ≤ PyStr.len s ∧ PyStr.len s ≤ 20.

(** What the validation of [on_join] and [handle_message] guarantees of the
    stored data, in every state the server reaches. *)
Record DataInv (st : Server) : Prop := {
  (** within a room no two connections bear the same name, and no
      connection is listed twice *)
  data_names_unique : ∀ room_id users,
    Dict.get room_id (active_rooms st) = Some users →
    NoDup (Dict.values users) ∧ NoDup (Dict.keys users);
  (** recorded names passed the validation of line 115 *)
  data_names_valid : ∀ room_id users sid name,
    Dict.get room_id (active_rooms st) = Some users →
    Dict.get sid users = Some name → valid_name name;
  (** stored messages passed the validation of line 158 *)
  data_messages_valid : ∀ room_id h m,
    Dict.get room_id (messages st) = Some h → m ∈ h →
    valid_name (msg_username m) ∧ trimmed (msg_message m)
    ∧ (msg_message m ≠ "" ∨ is_Some (msg_file m))
}.

(** ** Facts about dictionaries *)
Section dict_facts.
Context {K : Type} `{EqDecision K} {V : Type}.
Implicit Types (d : dict K V) (k : K) (v : V).

Lemma mem_true k d : Dict.mem k d = true ↔ is_Some (Dict.get k d).
Proof.
  unfold Dict.mem. destruct (Dict.get k d); split; intros Hm; eauto.
  - discriminate.
  - by destruct Hm.
Qed.

Lemma mem_false k d : Dict.mem k d = false ↔ Dict.get k d = None.
Proof. unfold Dict.mem. by destruct (Dict.get k d). Qed.

Lemma get_None_keys k d : Dict.get k d = None ↔ k ∉ Dict.keys d.
Proof.
  unfold Dict.keys. induction d as [|[k0 v0] d IH]; simpl.
  - split; [intros _; apply not_elem_of_nil | done].
  - rewrite not_elem_of_cons. destruct (decide (k0 = k)) as [->|Hne].
    + split; [done | by intros [? _]].
    + rewrite IH. split; [by split | by intros [_ ?]].
Qed.

Lemma get_Some_elem k v d : Dict.get k d = Some v → (k, v) ∈ d.
Proof.
  induction d as [|[k0 v0] d IH]; simpl; [done|].
  case_decide; intros; simplify_eq; [left | right; auto].
Qed.

Lemma get_set k k' v d :
  Dict.get k' (Dict.set k v d)
  = if decide (k = k') then Some v else Dict.get k' d.
Proof.
  induction d as [|[k0 v0] d IH]; simpl;
    repeat (case_decide; simplify_eq/=); done.
Qed.

Lemma get_alter f k k' d :
  Dict.get k' (Dict.alter f k d)
  = if decide (k = k') then f <$> Dict.get k' d else Dict.get k' d.
Proof.
  induction d as [|[k0 v0] d IH]; simpl;
    repeat (case_decide; simplify_eq/=); done.
Qed.

Lemma get_del k k' d :
  Dict.get k' (Dict.del k d)
  = if decide (k = k') then None else Dict.get k' d.
Proof.
  unfold Dict.del. induction d as [|[k0 v0] d IH]; simpl.
  - by case_decide.
  - rewrite filter_cons. simpl.
    repeat (case_decide; simplify_eq/=); done.
Qed.

Lemma keys_alter f k d : Dict.keys (Dict.alter f k d) = Dict.keys d.
Proof.
  unfold Dict.keys. induction d as [|[k0 v0] d IH]; simpl; [done|].
  case_decide; simpl; by f_equal.
Qed.

Lemma keys_set k v d :
  Dict.keys (Dict.set k v d)
  = if Dict.mem k d then Dict.keys d else Dict.keys d ++ [k].
Proof.
  unfold Dict.keys, Dict.mem. induction d as [|[k0 v0] d IH]; simpl; [done|].
  destruct (decide (k0 = k)) as [->|Hne]; simpl; [done|].
  change (k0 :: (Dict.set k v d).*1
          = if match Dict.get k d with Some _ => true | None => false end
            then k0 :: d.*1 else k0 :: d.*1 ++ [k]).
  rewrite IH. by destruct (Dict.get k d).
Qed.

Lemma del_absent k d : Dict.get k d = None → Dict.del k d = d.
Proof.
  unfold Dict.del. induction d as [|[k0 v0] d IH]; simpl; [done|].
  rewrite filter_cons. simpl. case_decide; [done|].
  intros Hg. rewrite decide_True by done. f_equal. auto.
Qed.

Lemma is_Some_get_del k k' d :
  is_Some (Dict.get k' (Dict.del k d)) ↔ k' ≠ k ∧ is_Some (Dict.get k' d).
Proof.
  rewrite get_del. destruct (decide (k = k')) as [->|Hne].
  - split; [by intros [? ?] | by intros [? _]].
  - split; [by split | by intros [_ ?]].
Qed.

End dict_facts.

(** ** What each handler does, as one case analysis *)

Lemma on_join_run W data sid st :
  on_join W data sid st =
    let username := join_name data in
    let room_id := join_room_of data in
    if bad_username username then (Return InvalidUsername, st, [])
    else
      let st1 := join_create room_id st in
      match Dict.get room_id (active_rooms st1) with
      | None => (Raise (KeyError room_id), st1, [])
      | Some users =>
          if bool_decide (username ∈ Dict.values users)
          then (Return UsernameTaken, st1, [])
          else if bool_decide (room_id ∈ connected st1)
          then (Raise (ValueError "cannot enter a sid room"),
                join_record sid username room_id st1, [])
          else
            let st2 := join_add sid username room_id st1 in
            match Dict.get room_id (active_rooms st2) with
            | None => (Raise (KeyError room_id), st2, [])
            | Some users2 =>
                match Dict.get room_id (messages st2) with
                | None => (Raise (KeyError room_id), st2, [])
                | Some msgs =>
                    (Return AckSuccess, tick st2,
                     deliver (JoinConfirmation username room_id
                                (Dict.values users2) (last_n 50 msgs))
                             (recipients sid sid true st2)
                     ++ deliver (UserJoined "System"
                                   (username +:+ " has joined the room")
                                   (Dict.values users2)
                                   (clock W (clock_reads st2)))
                                (recipients room_id sid false st2))
                end
            end
      end.
Proof.
  unfold on_join, join_name, join_room_of, bad_username, join_create.
  destruct (_ || _); [done|].
  unfold bind, read, modify, getitem, ret, raise, request_sid, join_room,
    now, emit; simpl.
  destruct (Dict.mem _ (active_rooms st)); simpl.
  all: destruct (Dict.get _ _) as [users|]; simpl; [|done].
  all: case_bool_decide; simpl; [done|].
  all: case_bool_decide; simpl; [done|].
  all: destruct (Dict.get _ (Dict.alter _ _ _)) as [users2|] eqn:Hu2;
    simpl; [|done].
  all: match goal with
       | |- context [Dict.get ?r (messages ?s)] =>
           destruct (Dict.get r (messages s)) as [msgs|]
       | |- context [Dict.get ?r (Dict.set ?r' ?v (messages ?s))] =>
           destruct (Dict.get r (Dict.set r' v (messages s))) as [msgs|]
       end; simpl; [|done].
  all: rewrite ?Hu2; simpl.
  all: by rewrite ?app_nil_r.
Qed.

Lemma handle_message_run W data sid st :
  handle_message W data sid st =
    match send_room_id data with
    | None => (Return NotInRoom, st, [])
    | Some room_id =>
        match Dict.get room_id (active_rooms st) with
        | None => (Return NotInRoom, st, [])
        | Some users =>
            match Dict.get sid users with
            | None => (Return NotInRoom, st, [])
            | Some username =>
                if empty_message data then (Return EmptyMessage, st, [])
                else
                  let m := new_message W st username data in
                  match Dict.get room_id (messages st) with
                  | None => (Raise (KeyError room_id), tick (draw st), [])
                  | Some _ =>
                      let st' := append_message room_id m (tick (draw st)) in
                      (Return AckSuccess, st',
                       deliver (NewMessage m)
                               (recipients room_id sid true st'))
                  end
            end
        end
    end.
Proof.
  unfold handle_message, empty_message, new_message.
  unfold bind, read, modify, getitem, ret, raise, request_sid, now, uuid4,
    emit; simpl.
  destruct (send_room_id data) as [room_id|]; [|done].
  destruct (Dict.get room_id (active_rooms st)) as [users|]; [|done].
  destruct (Dict.get sid users) as [username|]; [|done].
  destruct (_ && _); [done|]. simpl.
  destruct (Dict.get room_id (messages st)) as [msgs|]; simpl; [|done].
  by rewrite ?app_nil_r.
Qed.

Lemma handle_offer_run data sid st :
  handle_offer data sid st =
    (Return (), st,
     deliver (WebrtcOffer (offer_offer data) sid (caller_username data sid st))
             (recipients (default sid (offer_target_sid data)) sid true st)).
Proof.
  unfold handle_offer, bind, read, request_sid, emit. simpl. done.
Qed.

Lemma handle_answer_run data sid st :
  handle_answer data sid st =
    (Return (), st,
     deliver (WebrtcAnswer (answer_answer data) sid)
             (recipients (default sid (answer_target_sid data)) sid true st)).
Proof. unfold handle_answer, bind, request_sid, emit. simpl. done. Qed.

Lemma handle_ice_candidate_run data sid st :
  handle_ice_candidate data sid st =
    (Return (), st,
     deliver (IceCandidate (candidate_candidate data) sid)
             (recipients (default sid (candidate_target_sid data)) sid true st)).
Proof. unfold handle_ice_candidate, bind, request_sid, emit. simpl. done. Qed.

(** *** [handle_disconnect], one room at a time and as a whole *)

Lemma disconnect_room_run W room_id users sid st :
  disconnect_room W room_id users sid st =
    match Dict.get sid users with
    | None => (Return (), st, [])
    | Some username =>
        let users' := Dict.del sid users in
        let st1 :=
          with_active_rooms
            (Dict.alter (λ _, users') room_id (active_rooms st)) st in
        match users' with
        | [] =>
            (Return (),
             with_messages (Dict.del room_id (messages st1))
               (with_active_rooms (Dict.del room_id (active_rooms st1)) st1),
             [])
        | _ :: _ =>
            (Return (), tick st1,
             deliver (UserLeft username (username +:+ " has left the room")
                        (clock W (clock_reads st1)) (Dict.values users'))
                     (recipients room_id sid true (tick st1)))
        end
    end.
Proof.
  unfold disconnect_room, bind, request_sid, modify, ret, now, emit. simpl.
  destruct (Dict.get sid users) as [username|]; [|done]. simpl.
  destruct (Dict.del sid users) as [|u us]; simpl.
  - f_equal. f_equal.
    unfold with_messages, with_active_rooms. simpl.
    destruct (Dict.mem room_id (Dict.alter _ _ _)) eqn:Hm; simpl.
    all: destruct (Dict.mem room_id (messages st)) eqn:Hm'; simpl.
    all: try apply mem_false in Hm; try apply mem_false in Hm'.
    all: by rewrite ?(del_absent _ _ Hm), ?(del_absent _ _ Hm').
  - by rewrite ?app_nil_r.
Qed.

Lemma filter_all {A} (P : A → Prop) `{!∀ x, Decision (P x)} (l : list A) :
  (∀ x, x ∈ l → P x) → filter P l = l.
Proof.
  induction l as [|x l IH]; intros Hall; [done|].
  rewrite filter_cons_True by (apply Hall; left).
  f_equal. apply IH. intros y Hy. apply Hall. by right.
Qed.

Lemma alter_app_fresh {V} (f : V → V) (k : string) (v : V)
    (d1 d2 : dict string V) :
  k ∉ Dict.keys d1 →
  Dict.alter f k (d1 ++ (k, v) :: d2) = d1 ++ (k, f v) :: d2.
Proof.
  unfold Dict.keys. induction d1 as [|[k1 v1] d1 IH]; simpl.
  - intros _. by rewrite decide_True.
  - rewrite not_elem_of_cons. intros [Hne Hk].
    rewrite decide_False by done. f_equal. auto.
Qed.

Lemma del_app_fresh {V} (k : string) (v : V) (d1 d2 : dict string V) :
  k ∉ Dict.keys d1 → k ∉ Dict.keys d2 →
  Dict.del k (d1 ++ (k, v) :: d2) = d1 ++ d2.
Proof.
  intros H1 H2. unfold Dict.del.
  rewrite filter_app, filter_cons_False by (simpl; auto).
  f_equal; apply filter_all; intros [k' v'] Hin; simpl; intros ->.
  - apply H1. apply list_elem_of_fmap. by exists (k, v').
  - apply H2. apply list_elem_of_fmap. by exists (k, v').
Qed.

Lemma disconnect_loop W sid rest :
  ∀ done st,
    active_rooms st = done ++ rest →
    NoDup (Dict.keys (done ++ rest)) →
    ∃ st' out,
      for_each rest (λ '(room_id, users), disconnect_room W room_id users)
               sid st
      = (Return (), st', out)
      ∧ active_rooms st' = done ++ purge sid rest
      ∧ messages st' = filter (λ p, p.1 ∉ emptied sid rest) (messages st)
      ∧ connected st' = connected st
      ∧ sio_rooms st' = sio_rooms st
      ∧ uuid_draws st' = uuid_draws st.
Proof.
  induction rest as [|[room_id users] rest IH]; intros done st Har Hnd.
  - exists st, []. simpl. rewrite app_nil_r in *. repeat split; try done.
    symmetry. apply filter_all. intros ? _. apply not_elem_of_nil.
  - assert ((room_id ∉ Dict.keys done) ∧ (room_id ∉ Dict.keys rest))
      as [Hf1 Hf2].
    { unfold Dict.keys in *. rewrite fmap_app, fmap_cons in Hnd. simpl in Hnd.
      apply NoDup_app in Hnd as (_ & Hd & [Hr _]%NoDup_cons).
      split; [|done]. intros Hin. apply (Hd _ Hin). left. }
    assert (NoDup (Dict.keys (done ++ rest))) as Hnd'.
    { unfold Dict.keys in *. rewrite fmap_app in *.
      rewrite fmap_cons in Hnd.
      apply NoDup_app in Hnd as (Hn1 & Hd & [_ Hn2]%NoDup_cons).
      apply NoDup_app. split; [done|]. split; [|done].
      intros x Hx Hx'. apply (Hd x Hx). by right. }
    cbn [for_each]. unfold bind at 1. rewrite disconnect_room_run.
    unfold purge, emptied. cbn [omap list_omap].
    rewrite filter_cons.
    assert (purge_room sid (room_id, users)
            = match Dict.get sid users with
              | Some _ => match Dict.del sid users with
                          | [] => None
                          | users' => Some (room_id, users')
                          end
              | None => Some (room_id, users)
              end) as -> by done.
    destruct (Dict.get sid users) as [username|] eqn:Hget.
    + cbn zeta. rewrite Har, alter_app_fresh by done.
      destruct (Dict.del sid users) as [|u us] eqn:Hdel.
      * rewrite decide_True by done.
        set (st1 := with_messages _ _).
        destruct (IH done st1) as (s' & out' & E & Ha & Hm & Hc & Hs & Hu).
        { subst st1. cbn. by apply del_app_fresh. }
        { done. }
        rewrite E. exists s', ([] ++ out').
        repeat split; try done.
        rewrite Hm. subst st1. cbn [messages with_messages fmap list_fmap fst].
        unfold Dict.del. rewrite list_filter_filter.
        apply list_filter_iff. intros [k h]. cbn.
        rewrite not_elem_of_cons. fold (emptied sid rest). tauto.
      * rewrite decide_False by done.
        set (st1 := tick _). set (out1 := deliver _ _).
        destruct (IH (done ++ [(room_id, u :: us)]) st1)
          as (s' & out' & E & Ha & Hm & Hc & Hs & Hu).
        { subst st1. cbn. by rewrite <- app_assoc. }
        { rewrite <- app_assoc. cbn.
          unfold Dict.keys in *. by rewrite fmap_app, fmap_cons in *. }
        rewrite E. exists s', (out1 ++ out').
        repeat split; try done.
        rewrite Ha. by rewrite <- app_assoc.
    + rewrite decide_False by done.
      destruct (IH (done ++ [(room_id, users)]) st)
        as (s' & out' & E & Ha & Hm & Hc & Hs & Hu).
      { by rewrite <- app_assoc. }
      { by rewrite <- app_assoc. }
      rewrite E. exists s', ([] ++ out').
      repeat split; try done.
      rewrite Ha. by rewrite <- app_assoc.
Qed.

Lemma get_filter_keys {V} (P : string → Prop) `{!∀ k, Decision (P k)}
    (k : string) (d : dict string V) :
  Dict.get k (filter (λ p, P p.1) d) = if decide (P k) then Dict.get k d else None.
Proof.
  induction d as [|[k0 v0] d IH]; simpl.
  - by destruct (decide (P k)).
  - rewrite filter_cons. simpl.
    destruct (decide (P k0)) as [H0|H0]; simpl;
      destruct (decide (k0 = k)) as [->|Hne]; try done.
    + by destruct (decide (P k)).
    + rewrite IH. by destruct (decide (P k)).
Qed.

Lemma keys_filter_keys {V} (P : string → Prop) `{!∀ k, Decision (P k)}
    (d : dict string V) :
  Dict.keys (filter (λ p, P p.1) d) = filter P (Dict.keys d).
Proof.
  unfold Dict.keys. induction d as [|[k0 v0] d IH]; simpl; [done|].
  rewrite !filter_cons. simpl. destruct (decide (P k0)); simpl; by f_equal.
Qed.

Lemma filter_ext_in {A} (P Q : A → Prop)
    `{!∀ x, Decision (P x), !∀ x, Decision (Q x)} (l : list A) :
  (∀ x, x ∈ l → P x ↔ Q x) → filter P l = filter Q l.
Proof.
  induction l as [|x l IH]; intros Hext; [done|].
  rewrite !filter_cons.
  assert (filter P l = filter Q l) as ->.
  { apply IH. intros y Hy. apply Hext. by right. }
  destruct (decide (P x)) as [HP|HP], (decide (Q x)) as [HQ|HQ]; try done.
  - exfalso. apply HQ. apply Hext; [left | done].
  - exfalso. apply HP. apply Hext; [left | done].
Qed.

Lemma purge_room_key sid e e' : purge_room sid e = Some e' → e'.1 = e.1.
Proof.
  unfold purge_room. destruct (Dict.get sid e.2); [|congruence].
  destruct (Dict.del sid e.2); [done|]. intros [= <-]. done.
Qed.

Lemma emptied_keys sid ar r : r ∈ emptied sid ar → r ∈ Dict.keys ar.
Proof.
  unfold emptied, Dict.keys.
  intros ([k v] & -> & [_ Hin]%list_elem_of_filter)%list_elem_of_fmap.
  apply list_elem_of_fmap. by exists (k, v).
Qed.

Lemma emptied_cons sid e ar :
  emptied sid (e :: ar)
  = match purge_room sid e with
    | None => e.1 :: emptied sid ar
    | Some _ => emptied sid ar
    end.
Proof.
  unfold emptied. rewrite filter_cons.
  destruct (purge_room sid e) eqn:Hp.
  - by rewrite decide_False.
  - by rewrite decide_True.
Qed.

Lemma keys_purge sid ar :
  NoDup (Dict.keys ar) →
  Dict.keys (purge sid ar) = filter (λ k, k ∉ emptied sid ar) (Dict.keys ar).
Proof.
  induction ar as [|[k v] ar IH]; [done|].
  change (Dict.keys ((k, v) :: ar)) with (k :: Dict.keys ar).
  rewrite NoDup_cons. intros [Hk Hnd].
  rewrite emptied_cons. unfold purge. cbn [omap list_omap].
  destruct (purge_room sid (k, v)) as [[k' v']|] eqn:Hp.
  - apply purge_room_key in Hp as Hk'. simpl in Hk'. subst k'.
    rewrite filter_cons_True.
    + change (k :: Dict.keys (purge sid ar)
              = k :: filter (λ k0, k0 ∉ emptied sid ar) (Dict.keys ar)).
      f_equal. by apply IH.
    + intros Hin. apply Hk. by apply emptied_keys in Hin.
  - rewrite filter_cons_False by (intros Hn; apply Hn; left).
    fold (purge sid ar). rewrite IH by done.
    apply filter_ext_in. intros x Hx. simpl. rewrite not_elem_of_cons.
    split; [|tauto]. intros Hxe. split; [|done]. by intros ->.
Qed.

Lemma get_purge sid ar r :
  NoDup (Dict.keys ar) →
  Dict.get r (purge sid ar)
  = Dict.get r ar ≫= λ users, snd <$> purge_room sid (r, users).
Proof.
  induction ar as [|[k v] ar IH]; [done|].
  change (Dict.keys ((k, v) :: ar)) with (k :: Dict.keys ar).
  rewrite NoDup_cons. intros [Hk Hnd].
  unfold purge. cbn [omap list_omap Dict.get].
  fold (purge sid ar).
  destruct (decide (k = r)) as [->|Hne].
  - cbn [mbind option_bind].
    destruct (purge_room sid (r, v)) as [[k' v']|] eqn:Hp.
    + apply purge_room_key in Hp as Hk'. simpl in Hk'. subst k'.
      simpl. by rewrite decide_True.
    + simpl. apply get_None_keys. rewrite keys_purge by done.
      intros [_ Hin]%list_elem_of_filter. done.
  - destruct (purge_room sid (k, v)) as [[k' v']|] eqn:Hp.
    + apply purge_room_key in Hp as Hk'. simpl in Hk'. subst k'.
      simpl. rewrite decide_False by done. by apply IH.
    + by apply IH.
Qed.

Lemma purge_room_members sid r users e' :
  purge_room sid (r, users) = Some e' →
  e'.1 = r ∧ (users ≠ [] → e'.2 ≠ [])
  ∧ (∀ s, is_Some (Dict.get s e'.2) ↔ s ≠ sid ∧ is_Some (Dict.get s users)).
Proof.
  unfold purge_room. simpl.
  destruct (Dict.get sid users) as [name|] eqn:Hg.
  - destruct (Dict.del sid users) as [|u us] eqn:Hd; [done|].
    intros [= <-]. cbn [fst snd]. split; [done|]. split; [done|].
    intros s. rewrite <- Hd. apply is_Some_get_del.
  - intros [= <-]. simpl. split; [done|]. split; [done|].
    intros s. split; [|tauto]. intros Hs. split; [|done].
    intros ->. rewrite Hg in Hs. by destruct Hs.
Qed.

Lemma purge_room_gone sid r users :
  purge_room sid (r, users) = None →
  ∀ s, is_Some (Dict.get s users) → s = sid.
Proof.
  unfold purge_room. simpl.
  destruct (Dict.get sid users) as [name|] eqn:Hg; [|done].
  destruct (Dict.del sid users) as [|u us] eqn:Hd; [|done].
  intros _ s Hs. destruct (decide (s = sid)) as [|Hne]; [done|].
  assert (is_Some (Dict.get s (Dict.del sid users))) as Hs'.
  { apply is_Some_get_del. by split. }
  rewrite Hd in Hs'. by destruct Hs'.
Qed.

Lemma get_purge_Some sid ar r users' :
  NoDup (Dict.keys ar) →
  Dict.get r (purge sid ar) = Some users' →
  ∃ users, Dict.get r ar = Some users
           ∧ purge_room sid (r, users) = Some (r, users').
Proof.
  intros Hn. rewrite get_purge by done.
  destruct (Dict.get r ar) as [users|]; [|done]. simpl.
  destruct (purge_room sid (r, users)) as [[r' u']|] eqn:Hp; [|done].
  simpl. intros [= ->]. exists users. split; [done|].
  pose proof (purge_room_members _ _ _ _ Hp) as [Hr' _].
  simpl in Hr'. by subst r'.
Qed.

Lemma handle_disconnect_run W sid st :
  NoDup (Dict.keys (active_rooms st)) →
  ∃ st' out,
    handle_disconnect W sid st = (Return (), st', out)
    ∧ active_rooms st' = purge sid (active_rooms st)
    ∧ messages st'
      = filter (λ p, p.1 ∉ emptied sid (active_rooms st)) (messages st)
    ∧ connected st' = connected st
    ∧ sio_rooms st' = sio_rooms st
    ∧ uuid_draws st' = uuid_draws st.
Proof.
  intros Hnd.
  destruct (disconnect_loop W sid (active_rooms st) [] st)
    as (st' & out & E & H); [done..|].
  exists st', out. split; [|done].
  unfold handle_disconnect, bind, read, Dict.items. simpl. by rewrite E.
Qed.

(** ** The invariant holds of every reachable state *)

Lemma Inv_init W : Inv W init.
Proof.
  split; simpl.
  - done.
  - apply NoDup_nil_2.
  - by intros ? ? [=].
  - by intros ? ? (users & [=] & _).
  - intros room sid. unfold participants. simpl.
    rewrite lookup_empty. simpl. by intros ?%not_elem_of_empty.
  - by intros sid ?%not_elem_of_empty.
  - apply not_elem_of_empty.
  - by intros ? ? ? [=].
Qed.

Lemma participants_enter_room sid room r st :
  participants r (enter_room sid room st)
  = if decide (room = r) then {[sid]} ∪ participants room st
    else participants r st.
Proof.
  unfold participants at 1. unfold enter_room. simpl.
  destruct (decide (room = r)) as [->|Hne].
  - by rewrite lookup_insert_eq.
  - by rewrite lookup_insert_ne.
Qed.

Lemma participants_sio_disconnect sid r st :
  participants r (sio_disconnect sid st) = participants r st ∖ {[sid]}.
Proof.
  unfold participants, sio_disconnect. simpl. rewrite lookup_fmap.
  destruct (sio_rooms st !! r); simpl; [done | set_solver].
Qed.

Lemma Inv_connect W sid st :
  Inv W st → sid ≠ "" → sid ∉ connected st → Inv W (sio_connect sid st).
Proof.
  intros [Hk Hn Hne Hl Hr Hself Hsid Hids] Hname Hfresh. split; try done.
  - intros room_id s Hm. simpl. apply elem_of_union_r. by eapply Hl.
  - intros room s.
    change (participants room (sio_connect sid st))
      with (participants room (enter_room sid sid st)).
    rewrite participants_enter_room.
    change (connected (sio_connect sid st)) with ({[sid]} ∪ connected st).
    change (member s room (sio_connect sid st)) with (member s room st).
    specialize (Hr room s).
    destruct (decide (sid = room)) as [<-|Hne'].
    + rewrite !elem_of_union, !elem_of_singleton.
      intros [->|Hs]; [split; by left|].
      destruct (Hr Hs) as [? ?]. split; [by right | done].
    + rewrite !elem_of_union, !elem_of_singleton.
      intros Hs. destruct (Hr Hs) as [? ?]. split; [by right | done].
  - intros s.
    change (participants s (sio_connect sid st))
      with (participants s (enter_room sid sid st)).
    rewrite participants_enter_room.
    change (connected (sio_connect sid st)) with ({[sid]} ∪ connected st).
    rewrite elem_of_union, elem_of_singleton.
    destruct (decide (sid = s)) as [<-|Hne'].
    + intros _. apply elem_of_union. left. by apply elem_of_singleton.
    + intros [->|Hs]; [done | by apply Hself].
  - change (connected (sio_connect sid st)) with ({[sid]} ∪ connected st).
    rewrite not_elem_of_union, elem_of_singleton. split; [congruence | done].
Qed.

Lemma Inv_disconnect W sid st :
  Inv W st → Inv W (step W (EvDisconnect sid) st).1.
Proof.
  intros [Hk Hn Hne Hl Hr Hself Hsid Hids].
  destruct (handle_disconnect_run W sid st Hn)
    as (st' & out & E & Ha & Hm & Hc & Hs & Hu).
  unfold step, run. rewrite E. cbn [fst snd].
  assert (∀ r users',
            Dict.get r (active_rooms st') = Some users' →
            ∃ users, Dict.get r (active_rooms st) = Some users
                     ∧ purge_room sid (r, users) = Some (r, users')) as Hback.
  { intros r users'. rewrite Ha. by apply get_purge_Some. }
  split.
  - fields. rewrite Ha, Hm, keys_purge by done.
    pose proof (keys_filter_keys (λ k, k ∉ emptied sid (active_rooms st))
                  (messages st)) as Hfk.
    cbv beta in Hfk. rewrite Hfk. by rewrite Hk.
  - fields. rewrite Ha, keys_purge by done. by apply NoDup_filter.
  - fields. intros r users' Hg.
    destruct (Hback _ _ Hg) as (users & Hg' & Hp).
    apply purge_room_members in Hp as (_ & Hp & _). apply Hp. by eapply Hne.
  - intros r s (users' & Hg & Hs'). fields in Hg.
    destruct (Hback _ _ Hg) as (users & Hg' & Hp).
    apply purge_room_members in Hp as (_ & _ & Hp).
    destruct (proj1 (Hp s) Hs') as [Hsne Hsu].
    fields. rewrite Hc. apply elem_of_difference. split.
    + apply (Hl r s). by exists users.
    + by rewrite elem_of_singleton.
  - intros r s. rewrite participants_sio_disconnect.
    assert (participants r st' = participants r st) as ->.
    { unfold participants. by rewrite Hs. }
    cbn [connected sio_disconnect]. rewrite Hc.
    rewrite !elem_of_difference, elem_of_singleton.
    intros [Hin Hsne]. destruct (Hr r s Hin) as [Hcs Hor].
    split; [done|]. destruct Hor as [?|(users & Hg & Hs')]; [by left|].
    right. unfold member. cbn [active_rooms sio_disconnect].
    rewrite Ha, get_purge, Hg by done. simpl.
    destruct (purge_room sid (r, users)) as [e'|] eqn:Hp.
    + exists e'.2. split; [done|].
      apply purge_room_members in Hp as (_ & _ & Hp). by apply Hp.
    + exfalso. apply Hsne. by eapply purge_room_gone.
  - intros s. rewrite participants_sio_disconnect.
    assert (participants s st' = participants s st) as ->.
    { unfold participants. by rewrite Hs. }
    cbn [connected sio_disconnect]. rewrite Hc.
    rewrite !elem_of_difference, elem_of_singleton.
    intros [? ?]. split; [by apply Hself | done].
  - cbn [connected sio_disconnect]. rewrite Hc.
    rewrite elem_of_difference. by intros [? _].
  - fields. intros r h m. rewrite Hm, Hu.
    pose proof (get_filter_keys (λ k, k ∉ emptied sid (active_rooms st))
                  r (messages st)) as Hfk.
    cbv beta in Hfk. rewrite Hfk.
    destruct (decide _); [|done]. apply Hids.
Qed.

(** *** [on_join] on a state whose two tables have the same rooms *)

Lemma same_keys_mem {V1 V2} (d1 : dict string V1) (d2 : dict string V2) k :
  Dict.keys d1 = Dict.keys d2 → Dict.mem k d1 = Dict.mem k d2.
Proof.
  intros Hk. destruct (Dict.mem k d2) eqn:H2.
  - apply mem_true. apply not_eq_None_Some. rewrite get_None_keys, Hk.
    rewrite <- get_None_keys. apply not_eq_None_Some. by apply mem_true.
  - apply mem_false. rewrite get_None_keys, Hk, <- get_None_keys.
    by apply mem_false.
Qed.

Lemma join_create_active room r st :
  Dict.get r (active_rooms (join_create room st))
  = if decide (room = r) then Some (members_of room st)
    else Dict.get r (active_rooms st).
Proof.
  unfold join_create, members_of.
  destruct (Dict.mem room (active_rooms st)) eqn:Hm.
  - destruct (decide (room = r)) as [<-|]; [|done].
    apply mem_true in Hm as [users ->]. done.
  - fields. rewrite get_set. destruct (decide (room = r)); [|done].
    apply mem_false in Hm. by rewrite Hm.
Qed.

Lemma join_create_messages room r st :
  Dict.keys (active_rooms st) = Dict.keys (messages st) →
  Dict.get r (messages (join_create room st))
  = if decide (room = r) then Some (history_of room st)
    else Dict.get r (messages st).
Proof.
  intros Hk. unfold join_create, history_of.
  rewrite (same_keys_mem _ (messages st) _ Hk).
  destruct (Dict.mem room (messages st)) eqn:Hm.
  - destruct (decide (room = r)) as [<-|]; [|done].
    apply mem_true in Hm as [h ->]. done.
  - fields. rewrite get_set. destruct (decide (room = r)); [|done].
    apply mem_false in Hm. by rewrite Hm.
Qed.

Lemma join_create_keys room st :
  Dict.keys (active_rooms st) = Dict.keys (messages st) →
  Dict.keys (active_rooms (join_create room st))
  = Dict.keys (messages (join_create room st))
  ∧ Dict.keys (active_rooms (join_create room st))
    = if Dict.mem room (active_rooms st) then Dict.keys (active_rooms st)
      else Dict.keys (active_rooms st) ++ [room].
Proof.
  intros Hk. unfold join_create.
  pose proof (same_keys_mem _ (messages st) room Hk) as Hmm.
  destruct (Dict.mem room (active_rooms st)) eqn:Hm; [done|].
  fields. rewrite !keys_set, Hm, <- Hmm. by rewrite Hk.
Qed.

Lemma join_create_taken room st username :
  username ∈ Dict.values (members_of room st) → join_create room st = st.
Proof.
  unfold join_create, members_of, Dict.mem.
  destruct (Dict.get room (active_rooms st)); [done|].
  simpl. by intros ?%elem_of_nil.
Qed.

Lemma join_create_connected room st :
  connected (join_create room st) = connected st.
Proof. unfold join_create. by destruct (Dict.mem room (active_rooms st)). Qed.

Lemma join_create_participants room r st :
  participants r (join_create room st) = participants r st.
Proof.
  unfold participants, join_create.
  by destruct (Dict.mem room (active_rooms st)).
Qed.

Lemma join_create_uuid_draws room st :
  uuid_draws (join_create room st) = uuid_draws st.
Proof. unfold join_create. by destruct (Dict.mem room (active_rooms st)). Qed.

Lemma on_join_cases W data sid st :
  Dict.keys (active_rooms st) = Dict.keys (messages st) →
  on_join W data sid st =
    let username := join_name data in
    let room_id := join_room_of data in
    if bad_username username then (Return InvalidUsername, st, [])
    else if bool_decide (username ∈ Dict.values (members_of room_id st))
    then (Return UsernameTaken, st, [])
    else if bool_decide (room_id ∈ connected st)
    then (Raise (ValueError "cannot enter a sid room"),
          recorded sid username room_id st, [])
    else
      let st2 := join_add sid username room_id (join_create room_id st) in
      let users := Dict.set sid username (members_of room_id st) in
      (Return AckSuccess, joined sid username room_id st,
       deliver (JoinConfirmation username room_id (Dict.values users)
                  (last_n 50 (history_of room_id st)))
               (recipients sid sid true st2)
       ++ deliver (UserJoined "System" (username +:+ " has joined the room")
                     (Dict.values users) (clock W (clock_reads st2)))
                  (recipients room_id sid false st2)).
Proof.
  intros Hk. rewrite on_join_run. cbv zeta.
  destruct (bad_username _); [done|].
  rewrite join_create_active, decide_True by done.
  case_bool_decide as Htaken.
  { by rewrite (join_create_taken _ _ _ Htaken). }
  rewrite join_create_connected.
  case_bool_decide as Hsidroom; [done|].
  unfold join_add at 1 2, join_record at 1 2. fields.
  rewrite get_alter, decide_True, join_create_active, decide_True by done.
  rewrite join_create_messages, decide_True by done.
  done.
Qed.

Lemma recorded_active sid username room r st :
  Dict.get r (active_rooms (recorded sid username room st))
  = if decide (room = r)
    then Some (Dict.set sid username (members_of room st))
    else Dict.get r (active_rooms st).
Proof.
  unfold recorded, join_record. fields.
  rewrite get_alter, join_create_active.
  by destruct (decide (room = r)).
Qed.

Lemma recorded_participants sid username room r st :
  participants r (recorded sid username room st) = participants r st.
Proof. apply join_create_participants. Qed.

Lemma recorded_connected sid username room st :
  connected (recorded sid username room st) = connected st.
Proof. apply join_create_connected. Qed.

Lemma recorded_uuid_draws sid username room st :
  uuid_draws (recorded sid username room st) = uuid_draws st.
Proof. apply join_create_uuid_draws. Qed.

Lemma recorded_messages sid username room st :
  messages (recorded sid username room st) = messages (join_create room st).
Proof. done. Qed.

Lemma joined_active_recorded sid username room st :
  active_rooms (joined sid username room st)
  = active_rooms (recorded sid username room st).
Proof. done. Qed.

Lemma joined_active sid username room r st :
  Dict.get r (active_rooms (joined sid username room st))
  = if decide (room = r)
    then Some (Dict.set sid username (members_of room st))
    else Dict.get r (active_rooms st).
Proof. rewrite joined_active_recorded. apply recorded_active. Qed.

Lemma joined_participants sid username room r st :
  participants r (joined sid username room st)
  = if decide (room = r) then {[sid]} ∪ participants room st
    else participants r st.
Proof.
  unfold joined, join_add.
  change (participants r (tick ?s)) with (participants r s).
  rewrite participants_enter_room.
  change (join_record sid username room (join_create room st))
    with (recorded sid username room st).
  by rewrite !recorded_participants.
Qed.

Lemma joined_connected sid username room st :
  connected (joined sid username room st) = connected st.
Proof. apply join_create_connected. Qed.

Lemma joined_uuid_draws sid username room st :
  uuid_draws (joined sid username room st) = uuid_draws st.
Proof. apply join_create_uuid_draws. Qed.

Lemma joined_messages sid username room st :
  messages (joined sid username room st) = messages (join_create room st).
Proof. done. Qed.

Lemma is_Some_get_set {V} (k k' : string) (v : V) (d : dict string V) :
  is_Some (Dict.get k' (Dict.set k v d)) ↔ k' = k ∨ is_Some (Dict.get k' d).
Proof.
  rewrite get_set. destruct (decide (k = k')) as [->|Hne].
  - split; [by left | by eauto].
  - split; [by right|]. by intros [->|?].
Qed.

Lemma set_nonempty {V} (k : string) (v : V) (d : dict string V) :
  Dict.set k v d ≠ [].
Proof. destruct d as [|[k0 v0] d]; simpl; [done|]. by case_decide. Qed.

Lemma member_recorded sid username room r s st :
  member s r (recorded sid username room st)
  ↔ (r = room ∧ s = sid) ∨ member s r st.
Proof.
  unfold member. setoid_rewrite recorded_active.
  destruct (decide (room = r)) as [->|Hne].
  - split.
    + intros (users & [= <-] & [->|Hs]%is_Some_get_set); [by left|].
      right. unfold members_of in Hs.
      destruct (Dict.get r (active_rooms st)) as [users0|] eqn:Hg.
      * by exists users0.
      * by destruct Hs.
    + intros Hor. eexists. split; [done|]. apply is_Some_get_set.
      destruct Hor as [[_ ->]|(users & Hg & Hs)]; [by left|].
      right. unfold members_of. by rewrite Hg.
  - split; [by right|]. intros [[-> _]|?]; done.
Qed.

Lemma member_joined sid username room r s st :
  member s r (joined sid username room st)
  ↔ (r = room ∧ s = sid) ∨ member s r st.
Proof. apply member_recorded. Qed.

(** The invariant after line 128, whether or not the session then enters
    the Socket.IO room. *)
Lemma Inv_join_state W sid username room st st' :
  Inv W st → sid ∈ connected st →
  active_rooms st' = active_rooms (recorded sid username room st) →
  messages st' = messages (join_create room st) →
  connected st' = connected st →
  uuid_draws st' = uuid_draws st →
  (∀ r s, s ∈ participants r st' →
          s ∈ participants r st ∨ (r = room ∧ s = sid)) →
  (∀ s, s ∈ participants s st → s ∈ participants s st') →
  Inv W st'.
Proof.
  intros [Hk Hn Hne Hl Hr Hself Hnosid Hids] Hsid Ha Hm Hc Hu Hp1 Hp2.
  destruct (join_create_keys room st Hk) as [Hk1 Hk2].
  assert (∀ r s, member s r st' ↔ (r = room ∧ s = sid) ∨ member s r st)
    as Hmem.
  { intros r s. rewrite <- member_recorded with (username := username).
    unfold member. by rewrite Ha. }
  split.
  - rewrite Ha, Hm. unfold recorded, join_record. fields.
    by rewrite keys_alter.
  - rewrite Ha. unfold recorded, join_record. fields.
    rewrite keys_alter, Hk2.
    destruct (Dict.mem room (active_rooms st)) eqn:Hmm; [done|].
    apply NoDup_app. split; [done|]. split; [|apply NoDup_singleton].
    intros x Hx ->%list_elem_of_singleton.
    apply mem_false, get_None_keys in Hmm. done.
  - intros r users. rewrite Ha, recorded_active.
    destruct (decide (room = r)); [|apply Hne].
    intros [= <-]. apply set_nonempty.
  - intros r s. rewrite Hmem, Hc.
    intros [[_ ->]|?]; [done | by eapply Hl].
  - intros r s Hin. rewrite Hc, Hmem.
    destruct (Hp1 r s Hin) as [Hin'|[-> ->]].
    + destruct (Hr r s Hin') as [? [?|?]]; auto.
    + split; [done|]. right. by left.
  - intros s. rewrite Hc. intros Hs. by apply Hp2, Hself.
  - by rewrite Hc.
  - intros r h m. rewrite Hm, Hu.
    rewrite join_create_messages by done.
    destruct (decide (room = r)) as [->|]; [|apply Hids].
    intros [= <-]. unfold history_of.
    destruct (Dict.get r (messages st)) as [h|] eqn:Hg.
    + by apply (Hids r h m).
    + by intros ?%elem_of_nil.
Qed.

Lemma Inv_joined W sid username room st :
  Inv W st → sid ∈ connected st → Inv W (joined sid username room st).
Proof.
  intros HI Hsid.
  apply (Inv_join_state W sid username room st); try done.
  - apply joined_connected.
  - apply joined_uuid_draws.
  - intros r s. rewrite joined_participants.
    destruct (decide (room = r)) as [->|]; [|by left].
    rewrite elem_of_union, elem_of_singleton. intros [->|?]; auto.
  - intros s. rewrite joined_participants.
    destruct (decide (room = s)) as [->|]; [|done].
    rewrite elem_of_union. by right.
Qed.

Lemma Inv_recorded W sid username room st :
  Inv W st → sid ∈ connected st → Inv W (recorded sid username room st).
Proof.
  intros HI Hsid.
  apply (Inv_join_state W sid username room st); try done.
  - apply recorded_connected.
  - apply recorded_uuid_draws.
  - intros r s. rewrite recorded_participants. by left.
  - intros s. by rewrite recorded_participants.
Qed.

Lemma Inv_join W sid data st :
  Inv W st → sid ∈ connected st → Inv W (step W (EvJoin sid data) st).1.
Proof.
  intros HI Hsid. unfold step, run. cbn [fst snd].
  rewrite on_join_cases by apply HI. cbv zeta.
  destruct (bad_username _); [done|].
  case_bool_decide; [done|].
  case_bool_decide; cbn [fst snd].
  - by apply Inv_recorded.
  - by apply Inv_joined.
Qed.

(** *** [handle_message] on a state whose two tables have the same rooms *)

Lemma handle_message_cases W data sid st :
  Dict.keys (active_rooms st) = Dict.keys (messages st) →
  handle_message W data sid st =
    match send_room_id data, username_in (send_room_id data) sid st with
    | Some room_id, Some username =>
        if empty_message data then (Return EmptyMessage, st, [])
        else
          let m := new_message W st username data in
          (Return AckSuccess, sent W room_id username data st,
           deliver (NewMessage m)
                   (recipients room_id sid true
                               (sent W room_id username data st)))
    | _, _ => (Return NotInRoom, st, [])
    end.
Proof.
  intros Hk. rewrite handle_message_run. unfold username_in.
  destruct (send_room_id data) as [room_id|]; [|done]. simpl.
  destruct (Dict.get room_id (active_rooms st)) as [users|] eqn:Hg; [|done].
  simpl. destruct (Dict.get sid users) as [username|]; [|done].
  destruct (empty_message data); [done|].
  destruct (Dict.get room_id (messages st)) as [h|] eqn:Hh; [done|].
  exfalso. apply get_None_keys in Hh. rewrite <- Hk in Hh.
  apply get_None_keys in Hh. congruence.
Qed.

Lemma Inv_sent W room_id username data st :
  Inv W st → Inv W (sent W room_id username data st).
Proof.
  intros [Hk Hn Hne Hl Hr Hself Hnosid Hids]. unfold sent, append_message.
  split; try done.
  - fields. by rewrite keys_alter.
  - intros r h m. fields. rewrite get_alter.
    destruct (decide (room_id = r)) as [->|].
    + destruct (Dict.get r (messages st)) as [h0|] eqn:Hg; [|done].
      simpl. intros [= <-] [Hm|Hm]%elem_of_app.
      * destruct (Hids r h0 m Hg Hm) as (k & ? & ?). exists k.
        split; [lia | done].
      * apply list_elem_of_singleton in Hm as ->.
        exists (uuid_draws st). split; [lia | done].
    + intros Hg Hm. destruct (Hids r h m Hg Hm) as (k & ? & ?). exists k.
      split; [lia | done].
Qed.

Lemma Inv_send W sid data st :
  Inv W st → Inv W (step W (EvSendMessage sid data) st).1.
Proof.
  intros HI. unfold step, run. cbn [fst snd].
  rewrite handle_message_cases by apply HI.
  destruct (send_room_id data) as [room_id|]; [|done].
  destruct (username_in _ _ _) as [username|]; [|done].
  destruct (empty_message data); [done|]. cbn [fst snd]. by apply Inv_sent.
Qed.

Lemma Inv_step W e st : Inv W st → enabled e st → Inv W (step W e st).1.
Proof.
  intros HI He. destruct e as [sid|sid|sid data|sid data|sid data|sid data|sid data].
  - destruct He. by apply Inv_connect.
  - by apply Inv_disconnect.
  - by apply Inv_join.
  - by apply Inv_send.
  - unfold step, run. by rewrite handle_offer_run.
  - unfold step, run. by rewrite handle_answer_run.
  - unfold step, run. by rewrite handle_ice_candidate_run.
Qed.

Lemma reaches_Inv W st st' : reaches W st st' → Inv W st → Inv W st'.
Proof.
  induction 1 as [|st st' e Hreach IH He]; [done|].
  intros HI. apply Inv_step; auto.
Qed.

Lemma reachable_Inv W st : reachable W st → Inv W st.
Proof. intros Hr. eapply reaches_Inv; [exact Hr | apply Inv_init]. Qed.

(** ** Traces *)

Lemma enabledb_enabled e st : enabledb e st = true → enabled e st.
Proof. destruct e; simpl; intros H; by apply bool_decide_eq_true in H. Qed.

Lemma reaches_trans W st1 st2 st3 :
  reaches W st1 st2 → reaches W st2 st3 → reaches W st1 st3.
Proof.
  intros H12 H23. induction H23 as [|st2 st3 e H23 IH He]; [done|].
  apply reaches_step; auto.
Qed.

Lemma exec_reaches W tr st : valid W tr st = true → reaches W st (exec W tr st).
Proof.
  revert st. induction tr as [|e tr IH]; intros st Hv; simpl in *.
  - apply reaches_refl.
  - apply andb_true_iff in Hv as [He Hv].
    apply (reaches_trans _ _ (step W e st).1).
    + apply reaches_step; [apply reaches_refl | by apply enabledb_enabled].
    + by apply IH.
Qed.

Lemma exec_reachable W tr : valid W tr init = true → reachable W (exec W tr init).
Proof. apply exec_reaches. Qed.

(** The example states are reachable. *)
Lemma c1_state_reachable : reachable demo_world c1_state.
Proof. apply exec_reachable. vm_compute. reflexivity. Qed.

Lemma demo_state_reachable : reachable demo_world demo_state.
Proof. apply exec_reachable. vm_compute. reflexivity. Qed.

Lemma c7_state_reachable : reachable demo_world c7_state.
Proof. apply exec_reachable. vm_compute. reflexivity. Qed.

Lemma demo_uuid_inj : Inj (=) (=) (uuid_gen demo_world).
Proof. intros k1 k2 Heq. simpl in Heq. by apply (inj pretty) in Heq. Qed.

(** ** Validation failures (C3, C4, C5) *)

Lemma bad_username_spec username :
  bad_username username = true
  ↔ PyStr.len username < 2 ∨ 20 < PyStr.len username.
Proof.
  unfold bad_username. rewrite !orb_true_iff, bool_decide_eq_true.
  rewrite !Nat.ltb_lt. split; [|tauto].
  intros [[->|?]|?]; [left; cbn; lia | by left | by right].
Qed.

Lemma empty_message_spec data :
  empty_message data = true
  ↔ PyStr.strip (default "" (send_message data)) = "" ∧ send_file data = None.
Proof.
  unfold empty_message. rewrite andb_true_iff, bool_decide_eq_true.
  destruct (send_file data); simpl; split; intros [? ?]; done.
Qed.

(** C3: when [on_join] or [handle_message] returns InvalidUsername,
    UsernameTaken, NotInRoom or EmptyMessage, the store (the rooms, every
    room's membership and every room's history) is the same after the call
    as before it.  This holds in every state. *)
Theorem C3_validation_failure_leaves_store_unchanged
    (W : World) (c : Call) (sid : string) (st : Server) (ack : Ack) :
  (call W c sid st).1.1 = Return ack →
  ack ∈ [InvalidUsername; UsernameTaken; NotInRoom; EmptyMessage] →
  store (call W c sid st).1.2 = store st.
Proof.
  intros Hret Hack.
  assert (ack ≠ AckSuccess) as Hne.
  { intros ->. repeat (apply elem_of_cons in Hack as [Hack|Hack]; [done|]).
    by apply elem_of_nil in Hack. }
  destruct c as [data|data]; simpl in *.
  - rewrite on_join_run in *. cbv zeta in *.
    destruct (bad_username _); [done|].
    rewrite join_create_active, decide_True in * by done.
    case_bool_decide as Htaken.
    + by rewrite (join_create_taken _ _ _ Htaken).
    + case_bool_decide; [done|].
      destruct (Dict.get _ (active_rooms (join_add _ _ _ _))); [|done].
      destruct (Dict.get _ (messages (join_add _ _ _ _))); [|done].
      simpl in Hret. congruence.
  - rewrite handle_message_run in *.
    destruct (send_room_id data) as [room_id|]; [|done].
    destruct (Dict.get room_id (active_rooms st)) as [users|]; [|done].
    destruct (Dict.get sid users) as [username|]; [|done].
    destruct (empty_message data); [done|].
    destruct (Dict.get room_id (messages st)); [|done].
    simpl in Hret. congruence.
Qed.

(** A join with the one-character name [a] fails validation in the
    initial state. *)
Lemma C3_witness :
  store (call demo_world
           (CallJoin {| join_username := Some "a"; join_room_id := None |})
           "s1" init).1.2
  = store init.
Proof.
  apply (C3_validation_failure_leaves_store_unchanged demo_world
           (CallJoin {| join_username := Some "a"; join_room_id := None |})
           "s1" init InvalidUsername).
  - reflexivity.
  - left.
Defined.


(** C5: [handle_message] returns NotInRoom exactly when the sending
    connection is not a recorded member of the room the request names;
    otherwise it returns EmptyMessage exactly when the trimmed text is empty
    and no attachment descriptor is present; in all other cases it returns
    success. *)
Theorem C5_send_outcome
    (W : World) (data : SendData) (sid : string) (st : Server) :
  reachable W st →
  let is_member :=
    ∃ room_id, send_room_id data = Some room_id ∧ member sid room_id st in
  let empty :=
    PyStr.strip (default "" (send_message data)) = ""
    ∧ send_file data = None in
  let result := (handle_message W data sid st).1.1 in
  (result = Return NotInRoom ↔ ¬ is_member)
  ∧ (result = Return EmptyMessage ↔ is_member ∧ empty)
  ∧ (result = Return AckSuccess ↔ is_member ∧ ¬ empty).
Proof.
  intros Hreach is_member empty result.
  apply reachable_Inv in Hreach as [Hk _ _ _ _ _].
  subst result. rewrite (handle_message_cases _ _ _ _ Hk).
  assert (is_member ↔ is_Some (username_in (send_room_id data) sid st)) as Hm.
  { unfold is_member, username_in, member.
    destruct (send_room_id data) as [room_id|]; simpl.
    - destruct (Dict.get room_id (active_rooms st)) as [users|] eqn:Hg; simpl.
      + split.
        * intros (r & [= <-] & u & Hu & Hs). rewrite Hg in Hu. by simplify_eq.
        * intros Hs. exists room_id. split; [done|]. by exists users.
      + split; [|by intros [? ?]].
        intros (r & [= <-] & u & Hu & Hs). rewrite Hg in Hu. done.
    - split; [by intros (? & [=] & _) | by intros [? ?]]. }
  pose proof (empty_message_spec data) as He. fold empty in He.
  destruct (send_room_id data) as [room_id|];
    [destruct (username_in _ _ _) as [username|]|].
  - assert (is_member) as Hyes by (apply Hm; eauto).
    destruct (empty_message data); cbn [fst].
    + assert (empty) as Hempty by by apply He.
      split; [split; [intros [=] | done]|].
      split; [done|]. split; [intros [=] | intros [? ?]; done].
    + assert (¬ empty) as Hempty by (intros Hc; by apply He in Hc).
      split; [split; [intros [=] | done]|].
      split; [|done]. split; [intros [=] | intros [? ?]; done].
  - assert (¬ is_member) as Hno by (intros [? ?]%Hm; done).
    split; [done|]. split; (split; [intros [=] | intros [? ?]; done]).
  - assert (¬ is_member) as Hno by (intros [? ?]%Hm; done).
    split; [done|]. split; (split; [intros [=] | intros [? ?]; done]).
Qed.

(** Nobody is a member of anything in the initial state. *)
Lemma C5_witness :
  (handle_message demo_world
     {| send_room_id := Some "lobby"; send_message := Some "hi";
        send_file := None |} "s1" init).1.1 = Return NotInRoom.
Proof.
  apply (C5_send_outcome demo_world
           {| send_room_id := Some "lobby"; send_message := Some "hi";
              send_file := None |} "s1" init).
  - apply reaches_refl.
  - intros (room_id & _ & users & Hg & _). vm_compute in Hg. discriminate Hg.
Defined.

(** ** Room life cycle (C8, C10) *)

Lemma emptied_elem sid r users ar :
  Dict.get r ar = Some users → purge_room sid (r, users) = None →
  r ∈ emptied sid ar.
Proof.
  intros Hg Hp. unfold emptied. apply list_elem_of_fmap.
  exists (r, users). split; [done|]. apply list_elem_of_filter.
  split; [done|]. by apply get_Some_elem.
Qed.

(** C8: after every event no room with zero members is in the store, and
    when a disconnect removes the last member of a room, the room and its
    whole history are gone from the store after that same event. *)
Theorem C8_no_empty_room
    (W : World) (e : Event) (st : Server) :
  reachable W st → enabled e st →
  let st' := (step W e st).1 in
  (∀ room_id users,
     Dict.get room_id (active_rooms st') = Some users → users ≠ [])
  ∧ (∀ sid room_id users,
       e = EvDisconnect sid →
       Dict.get room_id (active_rooms st) = Some users →
       is_Some (Dict.get sid users) → Dict.del sid users = [] →
       Dict.get room_id (active_rooms st') = None
       ∧ Dict.get room_id (messages st') = None).
Proof.
  intros Hreach He st'. apply reachable_Inv in Hreach as HI.
  split.
  - pose proof (Inv_step W e st HI He) as HI'. apply HI'.
  - intros sid room_id users -> Hg [name Hs] Hdel. subst st'.
    destruct HI as [Hk Hn _ _ _ _].
    destruct (handle_disconnect_run W sid st Hn)
      as (st' & out & E & Ha & Hm & _).
    unfold step, run. rewrite E. fields. cbn [fst snd]. fields.
    assert (purge_room sid (room_id, users) = None) as Hp.
    { unfold purge_room. cbn [fst snd]. by rewrite Hs, Hdel. }
    split.
    + rewrite Ha, get_purge, Hg by done. simpl. by rewrite Hp.
    + rewrite Hm.
      pose proof (get_filter_keys (λ k, k ∉ emptied sid (active_rooms st))
                    room_id (messages st)) as Hfk.
      cbv beta in Hfk. rewrite Hfk.
      rewrite decide_False; [done|].
      intros Hnot. apply Hnot. by eapply emptied_elem.
Qed.

(** Alice, alone in r1, disconnects: r1 and its history are gone. *)
Lemma C8_witness :
  Dict.get "r1" (active_rooms c1_state) = Some [("s1", "alice")]
  ∧ Dict.get "r1" (active_rooms (step demo_world (EvDisconnect "s1") c1_state).1)
    = None
  ∧ Dict.get "r1" (messages (step demo_world (EvDisconnect "s1") c1_state).1)
    = None.
Proof.
  destruct (C8_no_empty_room demo_world (EvDisconnect "s1") c1_state)
    as [_ Hgone].
  - exact c1_state_reachable.
  - apply enabledb_enabled. vm_compute. reflexivity.
  - split; [vm_compute; reflexivity|].
    apply (Hgone "s1" "r1" [("s1", "alice")]).
    + reflexivity.
    + vm_compute. reflexivity.
    + exists "alice". vm_compute. reflexivity.
    + vm_compute. reflexivity.
Defined.

(** C10: in every state the server reaches, the rooms of [active_rooms]
    are the rooms of [messages]: a room has a history list exactly when it
    has a membership mapping. *)
Theorem C10_same_rooms (W : World) (st : Server) :
  reachable W st →
  Dict.keys (active_rooms st) = Dict.keys (messages st)
  ∧ ∀ room_id,
      is_Some (Dict.get room_id (active_rooms st))
      ↔ is_Some (Dict.get room_id (messages st)).
Proof.
  intros [Hk _ _ _ _ _]%reachable_Inv. split; [done|].
  intros room_id. rewrite <- !not_eq_None_Some, !get_None_keys. by rewrite Hk.
Qed.

(** With Alice and Bob in r1, both tables list r1 and nothing else. *)
Lemma C10_witness :
  Dict.keys (active_rooms demo_state) = Dict.keys (messages demo_state)
  ∧ ∀ room_id,
      is_Some (Dict.get room_id (active_rooms demo_state))
      ↔ is_Some (Dict.get room_id (messages demo_state)).
Proof. apply (C10_same_rooms demo_world demo_state demo_state_reachable). Defined.

(** ** Who receives what *)

Lemma elem_deliver s p p' rcpts :
  (s, p) ∈ deliver p' rcpts ↔ p = p' ∧ s ∈ rcpts.
Proof.
  unfold deliver. rewrite list_elem_of_fmap. split.
  - by intros (s' & [= -> ->] & ?).
  - intros [-> ?]. by exists s.
Qed.

Lemma elem_recipients s room sid include_self st :
  s ∈ recipients room sid include_self st
  ↔ s ∈ audience room st ∧ (include_self = true ∨ s ≠ sid).
Proof.
  unfold recipients. rewrite list_elem_of_filter, elem_of_elements. tauto.
Qed.

Lemma audience_room room st :
  room ≠ "" → audience room st = participants room st.
Proof. intros Hne. unfold audience. by rewrite bool_decide_eq_false_2. Qed.

Lemma live_sid_nonempty W sid st : Inv W st → sid ∈ connected st → sid ≠ "".
Proof. intros HI Hsid ->. by apply (inv_sid W st HI). Qed.

Lemma audience_connected W room s st :
  Inv W st → s ∈ audience room st → s ∈ connected st.
Proof.
  intros HI. unfold audience. case_bool_decide; [done|].
  intros Hin. by apply (inv_registry W st HI room s).
Qed.

(** ** History replay on join (C7) *)

(** C7: the join confirmation pushed to a joining client carries the last
    at most 50 messages of the room's history, in their original order;
    with 60 messages in the history these are messages 11 to 60. *)
Theorem C7_join_replays_last_50
    (W : World) (data : JoinData) (sid : string) (st : Server) :
  reachable W st → sid ∈ connected st →
  (on_join W data sid st).1.1 = Return AckSuccess →
  let room_id := default "lobby" (join_room_id data) in
  let h := history_of room_id st in
  let replay := drop (length h - 50) h in
  let out := (on_join W data sid st).2 in
  (∃ username users,
     (sid, JoinConfirmation username room_id users replay) ∈ out
     ∧ ∀ d, d ∈ out → event_name d.2 = "join_confirmation" →
            d.2 = JoinConfirmation username room_id users replay)
  ∧ replay `suffix_of` h
  ∧ length replay = min 50 (length h)
  ∧ (length h = 60 → replay = drop 10 h
                     ∧ ∀ i, i < 50 → replay !! i = h !! (10 + i)).
Proof.
  intros Hreach Hsid Hok room_id h replay out.
  apply reachable_Inv in Hreach as HI.
  subst out. revert Hok. rewrite (on_join_cases _ _ _ _ (inv_keys W st HI)).
  cbv zeta. destruct (bad_username _); [done|].
  case_bool_decide as Htaken; [done|].
  case_bool_decide as Hsidroom; [done|]. intros _. cbn [snd].
  fold room_id. change (join_room_of data) with room_id. fold h.
  unfold last_n. fold replay.
  split; [|split; [|split]].
  - eexists _, _. split.
    + apply elem_of_app. left. apply elem_deliver. split; [done|].
      apply elem_recipients. split; [|by left].
      rewrite audience_room by by eapply live_sid_nonempty.
      change (participants sid
                (join_add sid (join_name data) room_id
                   (join_create room_id st)))
        with (participants sid (joined sid (join_name data) room_id st)).
      rewrite joined_participants.
      assert (sid ∈ participants sid st) as Hp.
      { by apply (inv_self W st HI). }
      destruct (decide (room_id = sid)) as [->|]; [|done].
      apply elem_of_union. by right.
    + intros [s p] [Hd|Hd]%elem_of_app Hname; simpl in *.
      * unfold deliver in Hd. apply list_elem_of_fmap in Hd as (? & [= -> ->] & _).
        done.
      * unfold deliver in Hd. apply list_elem_of_fmap in Hd as (? & [= -> ->] & _).
        done.
  - apply suffix_drop.
  - subst replay. rewrite length_drop. lia.
  - intros Hlen. subst replay. rewrite Hlen. split; [done|].
    intros i _. apply lookup_drop.
Qed.

Lemma C7_witness :
  let h := history_of "r1" c7_state in
  length h = 60 ∧ drop (length h - 50) h = drop 10 h
  ∧ msg_id <$> drop 10 h = pretty <$> seq 10 50.
Proof.
  pose proof (C7_join_replays_last_50 demo_world
                {| join_username := Some "bob"; join_room_id := Some "r1" |}
                "s2" c7_state c7_state_reachable) as H.
  cbv zeta in H.
  assert (length (history_of "r1" c7_state) = 60) as Hlen
    by (vm_compute; reflexivity).
  destruct H as (_ & _ & _ & H).
  - vm_compute. reflexivity.
  - vm_compute. reflexivity.
  - cbv zeta. split; [exact Hlen|]. split; [apply (H Hlen)|].
    vm_compute. reflexivity.
Defined.

(** ** Sending a message (C6) *)

Lemma step_uuid_draws W e st :
  Inv W st → uuid_draws st ≤ uuid_draws (step W e st).1.
Proof.
  intros HI.
  destruct e as [sid|sid|sid data|sid data|sid data|sid data|sid data];
    unfold step, run.
  - done.
  - destruct (handle_disconnect_run W sid st (inv_nodup W st HI))
      as (st' & out & E & _ & _ & _ & _ & Hu).
    rewrite E. cbn [fst snd]. fields. by rewrite Hu.
  - rewrite on_join_cases by apply HI. cbv zeta.
    destruct (bad_username _); [done|]. case_bool_decide; [done|].
    case_bool_decide; cbn [fst snd].
    + by rewrite recorded_uuid_draws.
    + by rewrite joined_uuid_draws.
  - rewrite handle_message_cases by apply HI.
    destruct (send_room_id data); [|done].
    destruct (username_in _ _ _); [|done].
    destruct (empty_message data); [done|].
    cbn [fst snd]. unfold sent, append_message. fields. lia.
  - by rewrite handle_offer_run.
  - by rewrite handle_answer_run.
  - by rewrite handle_ice_candidate_run.
Qed.

Lemma reaches_uuid_draws W st st' :
  reaches W st st' → Inv W st → uuid_draws st ≤ uuid_draws st'.
Proof.
  induction 1 as [|st st' e Hreach IH He]; [done|].
  intros HI. specialize (IH HI).
  pose proof (step_uuid_draws W e st' (reaches_Inv W st st' Hreach HI)). lia.
Qed.


(** ** One room per connection? (C1) *)

(** Alice, a member of r1, joins r2: the join succeeds, the only event
    pushed is her join confirmation, and afterwards she is recorded in
    both rooms. *)
Lemma C1_counterexample :
  reachable demo_world c1_state
  ∧ "s1" ∈ connected c1_state
  ∧ (on_join demo_world c1_join "s1" c1_state).1.1 = Return AckSuccess
  ∧ (on_join demo_world c1_join "s1" c1_state).2
    = [("s1", JoinConfirmation "alice" "r2" ["alice"] [])]
  ∧ active_rooms (on_join demo_world c1_join "s1" c1_state).1.2
    = [("r1", [("s1", "alice")]); ("r2", [("s1", "alice")])]
  ∧ ¬ at_most_one_room (on_join demo_world c1_join "s1" c1_state).1.2.
Proof.
  split; [exact c1_state_reachable|].
  split; [vm_compute; reflexivity|].
  split; [vm_compute; reflexivity|].
  split; [vm_compute; reflexivity|].
  split; [vm_compute; reflexivity|].
  intros Hone.
  assert ("r1" = "r2") as Heq; [|discriminate Heq].
  apply (Hone "s1").
  - exists [("s1", "alice")]. split; [vm_compute; reflexivity|].
    exists "alice". vm_compute. reflexivity.
  - exists [("s1", "alice")]. split; [vm_compute; reflexivity|].
    exists "alice". vm_compute. reflexivity.
Qed.

Lemma disconnect_leaves_every_room W sid st r :
  Inv W st → ¬ member sid r (step W (EvDisconnect sid) st).1.
Proof.
  intros HI (users' & Hg & Hs).
  destruct (handle_disconnect_run W sid st (inv_nodup W st HI))
    as (st' & out & E & Ha & _).
  unfold step, run in Hg. rewrite E in Hg. cbn [fst snd] in Hg.
  fields in Hg. rewrite Ha in Hg.
  apply get_purge_Some in Hg as (users & _ & Hp); [|apply HI].
  apply purge_room_members in Hp as (_ & _ & Hp).
  apply Hp in Hs as [Hne _]. done.
Qed.

(** Members are removed by [handle_disconnect] alone, and only the
    session that disconnects. *)
Lemma member_kept W e s r st :
  Inv W st → e ≠ EvDisconnect s → member s r st → member s r (step W e st).1.
Proof.
  intros HI Hne Hm.
  destruct e as [sid|sid|sid data|sid data|sid data|sid data|sid data];
    unfold step, run.
  - done.
  - destruct (handle_disconnect_run W sid st (inv_nodup W st HI))
      as (st' & out & E & Ha & _).
    rewrite E. cbn [fst snd]. unfold member. fields. rewrite Ha.
    destruct Hm as (users & Hg & Hs).
    rewrite get_purge, Hg by apply HI. simpl.
    destruct (purge_room sid (r, users)) as [e'|] eqn:Hp.
    + exists e'.2. split; [done|].
      apply purge_room_members in Hp as (_ & _ & Hp). apply Hp.
      split; [|done]. by intros ->.
    + exfalso. apply Hne. f_equal. symmetry. by eapply purge_room_gone.
  - rewrite on_join_cases by apply HI. cbv zeta.
    destruct (bad_username _); [done|]. case_bool_decide; [done|].
    case_bool_decide; cbn [fst snd].
    + apply member_recorded. by right.
    + apply member_joined. by right.
  - rewrite handle_message_cases by apply HI.
    destruct (send_room_id data); [|done].
    destruct (username_in _ _ _); [|done].
    by destruct (empty_message data).
  - by rewrite handle_offer_run.
  - by rewrite handle_answer_run.
  - by rewrite handle_ice_candidate_run.
Qed.

(** C1, as the code has it: a successful [on_join] records the connection
    in the target room under the trimmed name and leaves the membership
    mapping of every other room exactly as it was, pushing no departure
    notice, so that whoever was a member of a room still is; a connection
    leaves its rooms, all of them at once, when it disconnects; and no
    other event of any session removes a member from any room. *)
Theorem C1_join_adds_disconnect_removes
    (W : World) (data : JoinData) (sid : string) (st : Server) :
  reachable W st → sid ∈ connected st →
  (on_join W data sid st).1.1 = Return AckSuccess →
  let username := PyStr.strip (default "" (join_username data)) in
  let room_id := default "lobby" (join_room_id data) in
  let st' := (on_join W data sid st).1.2 in
  let out := (on_join W data sid st).2 in
  Dict.get room_id (active_rooms st')
  = Some (Dict.set sid username (members_of room_id st))
  ∧ member sid room_id st'
  ∧ (∀ r, r ≠ room_id →
          Dict.get r (active_rooms st') = Dict.get r (active_rooms st))
  ∧ (∀ s r, member s r st → member s r st')
  ∧ (∀ d, d ∈ out → event_name d.2 ≠ "user_left")
  ∧ (∀ r, ¬ member sid r (step W (EvDisconnect sid) st').1)
  ∧ (∀ st1 e s r,
       reachable W st1 → e ≠ EvDisconnect s →
       member s r st1 → member s r (step W e st1).1).
Proof.
  intros Hreach Hsid Hok username room_id st' out.
  apply reachable_Inv in Hreach as HI.
  subst st' out. revert Hok.
  rewrite (on_join_cases _ _ _ _ (inv_keys W st HI)). cbv zeta.
  destruct (bad_username _); [done|].
  case_bool_decide as Htaken; [done|].
  case_bool_decide as Hsidroom; [done|]. intros _. cbn [fst snd].
  change (join_room_of data) with room_id.
  change (join_name data) with username.
  split; [|split; [|split; [|split; [|split; [|split]]]]].
  - by rewrite joined_active, decide_True.
  - apply member_joined. by left.
  - intros r Hne. by rewrite joined_active, decide_False.
  - intros s r Hm. apply member_joined. by right.
  - intros [s p] [Hd|Hd]%elem_of_app; unfold deliver in Hd;
      apply list_elem_of_fmap in Hd as (? & [= -> ->] & _); done.
  - intros r. apply disconnect_leaves_every_room. by apply Inv_joined.
  - intros st1 e s r Hreach1. apply member_kept. by apply reachable_Inv.
Qed.

(** Alice joins r2 while in r1, then disconnects. *)
Lemma C1_witness :
  member "s1" "r1" c1_state
  ∧ Dict.get "r1" (active_rooms (on_join demo_world c1_join "s1" c1_state).1.2)
    = Some [("s1", "alice")]
  ∧ Dict.get "r2" (active_rooms (on_join demo_world c1_join "s1" c1_state).1.2)
    = Some [("s1", "alice")]
  ∧ member "s1" "r1" (on_join demo_world c1_join "s1" c1_state).1.2
  ∧ member "s1" "r2" (on_join demo_world c1_join "s1" c1_state).1.2
  ∧ ∀ r, ¬ member "s1" r
           (step demo_world (EvDisconnect "s1")
              (on_join demo_world c1_join "s1" c1_state).1.2).1.
Proof.
  assert (member "s1" "r1" c1_state) as Hm.
  { exists [("s1", "alice")]. split; [vm_compute; reflexivity|].
    exists "alice". vm_compute. reflexivity. }
  destruct (C1_join_adds_disconnect_removes demo_world c1_join "s1" c1_state)
    as (Hnew & Hin & Hother & Hkept & _ & Hgone & _).
  - exact c1_state_reachable.
  - vm_compute. reflexivity.
  - vm_compute. reflexivity.
  - split; [exact Hm|].
    split; [rewrite (Hother "r1"); [vm_compute; reflexivity | discriminate]|].
    split; [exact Hnew|].
    split; [exact (Hkept "s1" "r1" Hm)|].
    split; [exact Hin | exact Hgone].
Defined.

(** ** Signaling relay (C2, C9) *)

(** When the target is a live session and no chat room bears its id, an
    [emit] to it reaches the target alone. *)
Lemma audience_of_session W target st :
  Inv W st → target ∈ connected st →
  Dict.get target (active_rooms st) = None →
  audience target st = {[target]}.
Proof.
  intros HI Hc Hg. rewrite audience_room by by eapply live_sid_nonempty.
  apply set_eq. intros s. rewrite elem_of_singleton. split.
  - intros [_ [?|(users & Hg' & _)]]%(inv_registry W st HI);
      [done | congruence].
  - intros ->. by apply (inv_self W st HI).
Qed.

(** When the target is not empty and names neither a live session nor a
    chat room, an [emit] to it reaches nobody. *)
Lemma audience_of_nobody W target st :
  Inv W st → target ≠ "" → target ∉ connected st →
  Dict.get target (active_rooms st) = None →
  audience target st = ∅.
Proof.
  intros HI Hne Hc Hg. rewrite audience_room by done.
  apply set_eq. intros s. split; [|by intros ?%not_elem_of_empty].
  intros [Hs [->|(users & Hg' & _)]]%(inv_registry W st HI);
    [done | congruence].
Qed.

Lemma recipients_all room sid st :
  recipients room sid true st = elements (audience room st).
Proof. unfold recipients. apply filter_all. intros ? _. by left. Qed.

(** Alice (s1) is a member of r1 and relays to Bob (s2): the answer and
    the candidate Bob receives carry no username at all, and the offer,
    sent without a room id, carries the marker and not her name. *)
Lemma C2_counterexample :
  reachable demo_world demo_state
  ∧ current_username "s1" demo_state = Some "alice"
  ∧ (handle_answer {| answer_target_sid := Some "s2";
                      answer_answer := Some "sdp" |} "s1" demo_state).2
    = [("s2", WebrtcAnswer (Some "sdp") "s1")]
  ∧ sender_username (WebrtcAnswer (Some "sdp") "s1") = None
  ∧ (handle_ice_candidate {| candidate_target_sid := Some "s2";
                             candidate_candidate := Some "ice" |}
       "s1" demo_state).2
    = [("s2", IceCandidate (Some "ice") "s1")]
  ∧ sender_username (IceCandidate (Some "ice") "s1") = None
  ∧ (handle_offer {| offer_target_sid := Some "s2";
                     offer_offer := Some "sdp";
                     offer_room_id := None |} "s1" demo_state).2
    = [("s2", WebrtcOffer (Some "sdp") "s1" "Someone")].
Proof.
  split; [exact demo_state_reachable|].
  repeat split; vm_compute; reflexivity.
Qed.

(** C2, as the code has it: relayed to a live target whose id is no room
    name, each signaling event reaches the target alone, once.  The offer
    carries the sender's connection id and a caller name looked up in the
    room the request itself names (the empty name when it names none): the
    sender's name in that room, or the marker [Someone] when the sender is
    not a member of it.  The answer and the candidate carry the sender's
    connection id and no username. *)
Theorem C2_relay_payloads
    (W : World) (st : Server) (sid target : string)
    (odata : OfferData) (adata : AnswerData) (cdata : CandidateData) :
  reachable W st → target ∈ connected st →
  Dict.get target (active_rooms st) = None →
  offer_target_sid odata = Some target →
  answer_target_sid adata = Some target →
  candidate_target_sid cdata = Some target →
  let named := default "" (offer_room_id odata) in
  (handle_offer odata sid st).2
  = [(target,
      WebrtcOffer (offer_offer odata) sid
        (default "Someone" (username_in (Some named) sid st)))]
  ∧ (handle_answer adata sid st).2
    = [(target, WebrtcAnswer (answer_answer adata) sid)]
  ∧ sender_username (WebrtcAnswer (answer_answer adata) sid) = None
  ∧ (handle_ice_candidate cdata sid st).2
    = [(target, IceCandidate (candidate_candidate cdata) sid)]
  ∧ sender_username (IceCandidate (candidate_candidate cdata) sid) = None.
Proof.
  intros Hreach Hc Hg Ho Ha Hcd named.
  apply reachable_Inv in Hreach as HI.
  rewrite handle_offer_run, handle_answer_run, handle_ice_candidate_run.
  rewrite Ho, Ha, Hcd. cbn [snd from_option id].
  rewrite !recipients_all, (audience_of_session W target st HI Hc Hg).
  rewrite elements_singleton.
  assert (caller_username odata sid st
          = default "Someone" (username_in (Some named) sid st)) as ->.
  { unfold caller_username, username_in. fold named. simpl.
    by destruct (Dict.get named (active_rooms st)). }
  done.
Qed.

(** Alice relays to Bob, naming her room in the offer. *)
Lemma C2_witness :
  (handle_offer {| offer_target_sid := Some "s2"; offer_offer := Some "sdp";
                   offer_room_id := Some "r1" |} "s1" demo_state).2
  = [("s2", WebrtcOffer (Some "sdp") "s1" "alice")].
Proof.
  destruct (C2_relay_payloads demo_world demo_state "s1" "s2"
              {| offer_target_sid := Some "s2"; offer_offer := Some "sdp";
                 offer_room_id := Some "r1" |}
              {| answer_target_sid := Some "s2"; answer_answer := None |}
              {| candidate_target_sid := Some "s2";
                 candidate_candidate := None |})
    as [Hoffer _].
  - exact demo_state_reachable.
  - vm_compute. reflexivity.
  - vm_compute. reflexivity.
  - reflexivity.
  - reflexivity.
  - reflexivity.
  - rewrite Hoffer. vm_compute. reflexivity.
Defined.

(** Alice relays an answer to the target id r1, which is no live
    connection but the room she and Bob are in: both of them get it. *)
Lemma C9_counterexample :
  reachable demo_world demo_state
  ∧ ("r1" ∉ connected demo_state)
  ∧ (handle_answer {| answer_target_sid := Some "r1";
                      answer_answer := Some "sdp" |} "s1" demo_state)
    = (Return (), demo_state,
       [("s1", WebrtcAnswer (Some "sdp") "s1");
        ("s2", WebrtcAnswer (Some "sdp") "s1")]).
Proof.
  split; [exact demo_state_reachable|].
  split.
  - intros Hin. vm_compute in Hin. discriminate Hin.
  - vm_compute. reflexivity.
Qed.

(** C9, as the code has it: a signaling relay whose target id is not
    empty and names neither a live connection nor an existing room
    completes without error, pushes no event to anybody, changes nothing
    and returns nothing.  (An empty target id is no address at all: the
    relay then goes to every live connection.) *)
Theorem C9_relay_to_nobody
    (W : World) (st : Server) (sid target : string)
    (odata : OfferData) (adata : AnswerData) (cdata : CandidateData) :
  reachable W st → target ≠ "" → target ∉ connected st →
  Dict.get target (active_rooms st) = None →
  offer_target_sid odata = Some target →
  answer_target_sid adata = Some target →
  candidate_target_sid cdata = Some target →
  handle_offer odata sid st = (Return (), st, [])
  ∧ handle_answer adata sid st = (Return (), st, [])
  ∧ handle_ice_candidate cdata sid st = (Return (), st, []).
Proof.
  intros Hreach Hne Hc Hg Ho Ha Hcd.
  apply reachable_Inv in Hreach as HI.
  rewrite handle_offer_run, handle_answer_run, handle_ice_candidate_run.
  rewrite Ho, Ha, Hcd. cbn [from_option id].
  rewrite !recipients_all, (audience_of_nobody W target st HI Hne Hc Hg).
  by rewrite elements_empty.
Qed.

(** Alice relays to s9, which is nobody. *)
Lemma C9_witness :
  handle_answer {| answer_target_sid := Some "s9"; answer_answer := None |}
    "s1" demo_state
  = (Return (), demo_state, []).
Proof.
  destruct (C9_relay_to_nobody demo_world demo_state "s1" "s9"
              {| offer_target_sid := Some "s9"; offer_offer := None;
                 offer_room_id := None |}
              {| answer_target_sid := Some "s9"; answer_answer := None |}
              {| candidate_target_sid := Some "s9";
                 candidate_candidate := None |})
    as (_ & Hanswer & _).
  - exact demo_state_reachable.
  - discriminate.
  - intros Hin. vm_compute in Hin. discriminate Hin.
  - vm_compute. reflexivity.
  - reflexivity.
  - reflexivity.
  - reflexivity.
  - exact Hanswer.
Defined.


(** ** The scenario of the specification, run on the model

    Alice (s1) and Bob (s2) are in r1.  Alice says hi: both receive the
    message.  Bob disconnects: Alice is told, with the member list reduced
    to her.  Alice then sends an offer to Bob's stale id: nothing is
    delivered and the state is untouched. *)
Example spec_scenario :
  let hi := {| send_room_id := Some "r1"; send_message := Some "hi";
               send_file := None |} in
  let st1 := (step demo_world (EvSendMessage "s1" hi) demo_state).1 in
  let st2 := (step demo_world (EvDisconnect "s2") st1).1 in
  let offer := {| offer_target_sid := Some "s2"; offer_offer := Some "sdp";
                  offer_room_id := Some "r1" |} in
  (msg_username <$> history_of "r1" st1, msg_message <$> history_of "r1" st1)
  = (["alice"], ["hi"])
  ∧ (fst <$> (step demo_world (EvSendMessage "s1" hi) demo_state).2)
    = ["s1"; "s2"]
  ∧ ("s1", UserLeft "bob" "bob has left the room" "3" ["alice"])
    ∈ (step demo_world (EvDisconnect "s2") st1).2
  ∧ active_rooms st2 = [("r1", [("s1", "alice")])]
  ∧ handle_offer offer "s1" st2 = (Return (), st2, []).
Proof.
  cbv zeta. split; [vm_compute; reflexivity|].
  split; [vm_compute; reflexivity|].
  split; [|split; vm_compute; reflexivity].
  apply (list_elem_of_lookup_2 _ 0). vm_compute. reflexivity.
Qed.

(** * Further properties: the upload endpoint *)

(** ** [allowed_file] *)

Lemma append_cons c s t : String c s +:+ t = String c (s +:+ t).
Proof. reflexivity. Qed.

Lemma append_nil_l t : "" +:+ t = t.
Proof. reflexivity. Qed.

Lemma contains_append c a b :
  PyText.contains c (a +:+ b) = PyText.contains c a || PyText.contains c b.
Proof.
  induction a as [|c' a IH]; [done|].
  rewrite append_cons. cbn [PyText.contains]. rewrite IH.
  by rewrite orb_assoc.
Qed.

Lemma rsplit1_no_sep sep s :
  PyText.contains sep s = false → PyText.rsplit1 sep s = [s].
Proof.
  induction s as [|c s IH]; [done|]. cbn [PyText.contains PyText.rsplit1].
  intros [Hc Hs]%orb_false_iff. rewrite (IH Hs).
  apply bool_decide_eq_false in Hc. by rewrite decide_False.
Qed.

Lemma rsplit1_last sep base ext :
  PyText.contains sep ext = false →
  PyText.rsplit1 sep (base +:+ String sep ext) = [base; ext].
Proof.
  intros Hext. induction base as [|c base IH].
  - rewrite append_nil_l. cbn [PyText.rsplit1].
    rewrite (rsplit1_no_sep _ _ Hext). by rewrite decide_True.
  - rewrite append_cons. cbn [PyText.rsplit1]. by rewrite IH.
Qed.

(** A name with a separator splits at its last one. *)
Lemma contains_last sep s :
  PyText.contains sep s = true →
  ∃ base ext, s = base +:+ String sep ext ∧ PyText.contains sep ext = false.
Proof.
  induction s as [|c s IH]; [done|]. cbn [PyText.contains].
  destruct (PyText.contains sep s) eqn:Hs.
  - intros _. destruct (IH eq_refl) as (base & ext & -> & Hext).
    exists (String c base), ext. by rewrite append_cons.
  - rewrite orb_false_r. intros ->%bool_decide_eq_true.
    exists "", s. by rewrite append_nil_l.
Qed.

Lemma allowed_file_split base ext :
  PyText.contains "." ext = false →
  allowed_file (base +:+ "." +:+ ext)
  = bool_decide (PyText.lower ext ∈ ALLOWED_EXTENSIONS).
Proof.
  intros Hext. unfold allowed_file.
  change ("." +:+ ext) with (String "." ext).
  rewrite contains_append, (rsplit1_last _ _ _ Hext).
  cbn [PyText.contains]. rewrite bool_decide_eq_true_2 by done.
  by rewrite orb_true_r.
Qed.

(** X1: [allowed_file] accepts exactly the names that have a dot and
    whose text after the last dot is, lower-cased, one of the allowed
    extensions; whatever stands before the last dot, further dots included
    or nothing at all, does not matter. *)
Theorem X1_allowed_file_last_extension (filename : string) :
  allowed_file filename = true
  ↔ ∃ base ext,
      filename = base +:+ "." +:+ ext
      ∧ PyText.contains "." ext = false
      ∧ PyText.lower ext ∈ ALLOWED_EXTENSIONS.
Proof.
  split.
  - intros Hok. assert (PyText.contains "." filename = true) as Hdot.
    { unfold allowed_file in Hok. by apply andb_true_iff in Hok as [? _]. }
    destruct (contains_last _ _ Hdot) as (base & ext & -> & Hext).
    exists base, ext. split; [done|]. split; [done|].
    change (String "." ext) with ("." +:+ ext) in Hok.
    rewrite (allowed_file_split _ _ Hext) in Hok.
    by apply bool_decide_eq_true in Hok.
  - intros (base & ext & -> & Hext & Hin).
    rewrite (allowed_file_split _ _ Hext). by apply bool_decide_eq_true.
Qed.

Lemma lower_char_idem c :
  PyText.lower_char (PyText.lower_char c) = PyText.lower_char c.
Proof. by destruct c as [[] [] [] [] [] [] [] []]. Qed.

Lemma lower_char_dot c :
  bool_decide (PyText.lower_char c = "."%char) = bool_decide (c = "."%char).
Proof. by destruct c as [[] [] [] [] [] [] [] []]. Qed.

Lemma lower_idem s : PyText.lower (PyText.lower s) = PyText.lower s.
Proof.
  induction s as [|c s IH]; [done|]. cbn [PyText.lower].
  by rewrite lower_char_idem, IH.
Qed.

Lemma contains_dot_lower s :
  PyText.contains "." (PyText.lower s) = PyText.contains "." s.
Proof.
  induction s as [|c s IH]; [done|]. cbn [PyText.lower PyText.contains].
  by rewrite lower_char_dot, IH.
Qed.

(** X2: the extension check does not look at the case of the
    extension. *)
Theorem X2_allowed_file_ignores_case (base ext : string) :
  PyText.contains "." ext = false →
  allowed_file (base +:+ "." +:+ ext)
  = allowed_file (base +:+ "." +:+ PyText.lower ext).
Proof.
  intros Hext. rewrite !allowed_file_split, ?lower_idem; try done.
  by rewrite contains_dot_lower.
Qed.

(** An upper-case extension after a second dot. *)
Lemma X2_witness :
  allowed_file "notes.v2.PDF" = allowed_file "notes.v2.pdf"
  ∧ allowed_file "notes.v2.PDF" = true.
Proof.
  split; [|vm_compute; reflexivity].
  apply (X2_allowed_file_ignores_case "notes.v2" "PDF").
  vm_compute. reflexivity.
Defined.

(** ** [upload_file] *)

(** X3: [upload_file] answers "No file part" exactly when the request has
    no file, "No selected file" exactly when the file's name is empty, and
    "File type not allowed" exactly when the name is not empty and
    [allowed_file] rejects it; on each of these errors nothing is written:
    the metadata table, the disk and the chat state are as before. *)
Theorem X3_upload_file_rejections
    (W : World) (site : Site) (file : option Upload) (app : App) :
  let r := upload_file W site file app in
  (r.1 = Error400 "No file part" ↔ file = None)
  ∧ (r.1 = Error400 "No selected file"
     ↔ ∃ f, file = Some f ∧ up_filename f = "")
  ∧ (r.1 = Error400 "File type not allowed"
     ↔ ∃ f, file = Some f ∧ up_filename f ≠ ""
            ∧ allowed_file (up_filename f) = false)
  ∧ (∀ e, r.1 = Error400 e → r.2 = app).
Proof.
  unfold upload_file. destruct file as [f|]; cbn zeta.
  - case_bool_decide as Hname.
    + cbn [fst snd]. split; [split; [intros [=] | intros [=]]|].
      split; [split; [by exists f | done]|].
      split; [|done]. split; [intros [=] | intros (? & [= <-] & ? & _); done].
    + destruct (allowed_file (up_filename f)) eqn:Hok; cbn [fst snd].
      * split; [split; [intros [=] | intros [=]]|].
        split; [split; [intros [=] | intros (? & [= <-] & ?); done]|].
        split; [|intros e [=]].
        split; [intros [=] | intros (? & [= <-] & _ & ?); congruence].
      * split; [split; [intros [=] | intros [=]]|].
        split; [split; [intros [=] | intros (? & [= <-] & ?); done]|].
        split; [|done]. split; [by exists f | done].
  - cbn [fst snd]. split; [done|].
    split; [split; [intros [=] | intros (? & [=] & _)]|].
    split; [|done]. split; [intros [=] | intros (? & [=] & _)].
Qed.

(** X4: an accepted upload answers with a fresh file id, the sanitised
    name and the download URL of the stored file; the bytes are on disk
    under the upload folder, the metadata is recorded under the file id,
    every other metadata entry and every other file is as before, and the
    chat's rooms, histories and connections are untouched. *)
Theorem X4_upload_file_stores
    (W : World) (site : Site) (f : Upload) (app : App) :
  up_filename f ≠ "" → allowed_file (up_filename f) = true →
  let r := upload_file W site (Some f) app in
  let name := secure_filename site (up_filename f) in
  let unique := uuid_gen W (uuid_draws (server app)) +:+ "_" +:+ name in
  let path := PyText.path_join (upload_folder site) unique in
  let file_id := uuid_gen W (S (uuid_draws (server app))) in
  r.1 = Ok200 file_id name ("/uploads/" +:+ unique)
  ∧ Dict.get path (disk r.2) = Some (up_content f)
  ∧ (∃ meta, Dict.get file_id (file_uploads r.2) = Some meta
             ∧ meta_path meta = path ∧ meta_filename meta = name)
  ∧ (∀ k, k ≠ file_id →
          Dict.get k (file_uploads r.2) = Dict.get k (file_uploads app))
  ∧ (∀ p, p ≠ path → Dict.get p (disk r.2) = Dict.get p (disk app))
  ∧ store (server r.2) = store (server app)
  ∧ connected (server r.2) = connected (server app)
  ∧ sio_rooms (server r.2) = sio_rooms (server app).
Proof.
  intros Hname Hok r name unique path file_id. subst r.
  unfold upload_file. rewrite bool_decide_eq_false_2, Hok by done.
  cbn [fst snd file_uploads disk server].
  split; [done|]. split; [by rewrite get_set, decide_True|].
  split; [eexists; split; [by rewrite get_set, decide_True | done]|].
  split; [intros k Hk; by rewrite get_set, decide_False|].
  split; [intros p Hp; by rewrite get_set, decide_False|].
  done.
Qed.

(** A deployment for examples: uploads go to /srv/uploads and names are
    kept as they are. *)
Lemma X4_witness :
  (upload_file demo_world
     {| upload_folder := "/srv/uploads"; secure_filename := λ s, s |}
     (Some {| up_filename := "cat.PNG"; up_content := "bytes" |})
     {| server := demo_state; file_uploads := []; disk := [] |}).1
  = Ok200 "1" "cat.PNG" "/uploads/0_cat.PNG".
Proof.
  destruct (X4_upload_file_stores demo_world
              {| upload_folder := "/srv/uploads"; secure_filename := λ s, s |}
              {| up_filename := "cat.PNG"; up_content := "bytes" |}
              {| server := demo_state; file_uploads := []; disk := [] |})
    as [Hr _].
  - discriminate.
  - vm_compute. reflexivity.
  - rewrite Hr. vm_compute. reflexivity.
Defined.

(** * Further properties: the chat handlers *)

(** ** What [handle_disconnect] pushes *)

Lemma elem_of_get {V} (k : string) (v : V) (d : dict string V) :
  NoDup (Dict.keys d) → (k, v) ∈ d → Dict.get k d = Some v.
Proof.
  unfold Dict.keys. induction d as [|[k0 v0] d IH]; simpl.
  - intros _ Hin. by apply elem_of_nil in Hin.
  - rewrite NoDup_cons. intros [Hk0 Hnd] [Heq|Hin]%elem_of_cons.
    + simplify_eq. by rewrite decide_True.
    + rewrite decide_False; [auto|].
      intros ->. apply Hk0. apply list_elem_of_fmap. by exists (k, v).
Qed.

Lemma disconnect_loop_out W sid rest :
  ∀ st aud,
    (∀ r, audience r st = aud r) →
    (for_each rest (λ '(room_id, users), disconnect_room W room_id users)
              sid st).2
    = disconnect_out W sid aud (clock_reads st) rest.
Proof.
  induction rest as [|[room_id users] rest IH]; intros st aud Haud; [done|].
  cbn [for_each disconnect_out]. unfold bind at 1.
  rewrite disconnect_room_run.
  destruct (Dict.get sid users) as [username|].
  - cbv zeta. destruct (Dict.del sid users) as [|u us].
    + set (st1 := with_messages _ _). specialize (IH st1 aud Haud).
      destruct (for_each rest _ sid st1) as [[o s'] out'].
      cbn [snd] in *. by rewrite IH.
    + set (st1 := tick _). specialize (IH st1 aud Haud).
      destruct (for_each rest _ sid st1) as [[o s'] out'].
      cbn [snd] in *. rewrite IH. unfold recipients.
      rewrite filter_all by (intros ? _; by left).
      rewrite <- (Haud room_id). done.
  - specialize (IH st aud Haud).
    destruct (for_each rest _ sid st) as [[o s'] out'].
    cbn [snd] in *. by rewrite IH.
Qed.

Lemma handle_disconnect_out W sid st :
  (handle_disconnect W sid st).2
  = disconnect_out W sid (λ r, audience r st) (clock_reads st)
      (active_rooms st).
Proof.
  rewrite <- (disconnect_loop_out W sid (active_rooms st) st) by done.
  unfold handle_disconnect, bind, read, Dict.items. simpl.
  by destruct (for_each _ _ sid st) as [[[] ?] ?].
Qed.

Lemma disconnect_loop_absent W sid rest :
  ∀ st,
    (∀ room_id users, (room_id, users) ∈ rest → Dict.get sid users = None) →
    for_each rest (λ '(room_id, users), disconnect_room W room_id users) sid st
    = (Return (), st, []).
Proof.
  induction rest as [|[room_id users] rest IH]; intros st Habs; [done|].
  cbn [for_each]. unfold bind at 1. rewrite disconnect_room_run.
  rewrite (Habs room_id users) by left.
  rewrite IH; [done|]. intros r u Hin. apply (Habs r u). by right.
Qed.

Lemma disconnect_out_absent W sid aud reads rest :
  (∀ room_id users, (room_id, users) ∈ rest → Dict.get sid users = None) →
  disconnect_out W sid aud reads rest = [].
Proof.
  induction rest as [|[room_id users] rest IH]; intros Habs; [done|].
  cbn [disconnect_out]. rewrite (Habs room_id users) by left.
  apply IH. intros r u Hin. apply (Habs r u). by right.
Qed.

Lemma purge_absent sid ar :
  (∀ room_id users, (room_id, users) ∈ ar → Dict.get sid users = None) →
  purge sid ar = ar ∧ emptied sid ar = [].
Proof.
  induction ar as [|[room_id users] ar IH]; intros Habs; [done|].
  destruct IH as [IH1 IH2].
  { intros r u Hin. apply (Habs r u). by right. }
  assert (purge_room sid (room_id, users) = Some (room_id, users)) as Hp.
  { unfold purge_room. cbn [fst snd]. by rewrite (Habs room_id users) by left. }
  split.
  - unfold purge in *. cbn [omap list_omap]. rewrite Hp. by f_equal.
  - rewrite emptied_cons, Hp. done.
Qed.

Lemma not_member_absent W sid st :
  Inv W st → (∀ r, ¬ member sid r st) →
  ∀ room_id users,
    (room_id, users) ∈ active_rooms st → Dict.get sid users = None.
Proof.
  intros HI Hno room_id users Hin.
  destruct (Dict.get sid users) as [name|] eqn:Hg; [|done].
  exfalso. apply (Hno room_id). exists users. split; [|by rewrite Hg].
  apply elem_of_get; [apply HI | done].
Qed.

(** X5: when the disconnecting connection is a member of no room,
    [handle_disconnect] does nothing: it returns without pushing any event
    and leaves the whole state as it was. *)
Theorem X5_disconnect_outside_rooms
    (W : World) (sid : string) (st : Server) :
  reachable W st → (∀ r, ¬ member sid r st) →
  handle_disconnect W sid st = (Return (), st, []).
Proof.
  intros HI%reachable_Inv Hno.
  unfold handle_disconnect, bind, read, Dict.items. simpl.
  rewrite disconnect_loop_absent; [done|].
  by apply (not_member_absent W).
Qed.

(** Carol (s3) connected after Alice and Bob joined r1, and joined
    nothing. *)
Lemma X5_witness :
  let st := (step demo_world (EvConnect "s3") demo_state).1 in
  handle_disconnect demo_world "s3" st = (Return (), st, []).
Proof.
  intros st. apply (X5_disconnect_outside_rooms demo_world "s3" st).
  - apply reaches_step; [exact demo_state_reachable|].
    apply enabledb_enabled. vm_compute. reflexivity.
  - intros r (users & Hg & Hs).
    assert (active_rooms st = [("r1", [("s1", "alice"); ("s2", "bob")])])
      as Har by (vm_compute; reflexivity).
    rewrite Har in Hg. cbn [Dict.get] in Hg.
    destruct (decide ("r1" = r)); [|discriminate Hg].
    injection Hg as <-. vm_compute in Hs. destruct Hs as [x Hx].
    discriminate Hx.
Defined.

Lemma disconnect_out_room W sid aud room_id users name rest :
  (room_id, users) ∈ rest → Dict.get sid users = Some name →
  Dict.del sid users ≠ [] →
  ∀ reads s, s ∈ aud room_id →
    ∃ ts, (s, UserLeft name (name +:+ " has left the room") ts
                (Dict.values (Dict.del sid users)))
          ∈ disconnect_out W sid aud reads rest.
Proof.
  intros Hin Hname Hdel.
  induction rest as [|[r u] rest IH]; intros reads s Hs.
  - by apply elem_of_nil in Hin.
  - cbn [disconnect_out]. apply elem_of_cons in Hin as [[= <- <-]|Hin].
    + rewrite Hname. destruct (Dict.del sid users) as [|x xs] eqn:Hd; [done|].
      exists (clock W reads). apply elem_of_app. left.
      apply elem_deliver. split; [done|]. by apply elem_of_elements.
    + destruct (Dict.get sid u) as [n|]; [|by apply IH].
      destruct (Dict.del sid u) as [|x xs]; [by apply IH|].
      destruct (IH Hin (S reads) s Hs) as [ts Hts]. exists ts.
      apply elem_of_app. by right.
Qed.

Lemma disconnect_out_skip W sid aud reads l1 l2 :
  (∀ room_id users, (room_id, users) ∈ l1 → Dict.get sid users = None) →
  disconnect_out W sid aud reads (l1 ++ l2) = disconnect_out W sid aud reads l2.
Proof.
  induction l1 as [|[r u] l1 IH]; intros Habs; [done|].
  cbn [app disconnect_out]. rewrite (Habs r u) by left.
  apply IH. intros r' u' Hin. apply (Habs r' u'). by right.
Qed.

Lemma filter_deliver (p : Payload) (s : string) (l : list string) :
  NoDup l → s ∈ l → filter (λ d : Delivery, d.1 = s) (deliver p l) = [(s, p)].
Proof.
  unfold deliver. induction l as [|x l IH]; intros Hnd Hin.
  - by apply elem_of_nil in Hin.
  - apply NoDup_cons in Hnd as [Hx Hnd]. cbn [fmap list_fmap].
    rewrite filter_cons. cbn [fst].
    apply elem_of_cons in Hin as [->|Hin].
    + rewrite decide_True by done. f_equal.
      apply elem_of_nil_inv. intros [y q] [Hy Hq]%list_elem_of_filter.
      apply list_elem_of_fmap in Hq as (z & [= -> ->] & Hz).
      simpl in Hy. by subst z.
    + rewrite decide_False by (intros ->; done). by apply IH.
Qed.

(** A member of a room that entered its Socket.IO room is reached by an
    [emit] to the room. *)
Lemma member_audience W s room st :
  Inv W st → member s room st → s ∈ participants room st →
  s ∈ audience room st.
Proof.
  intros HI Hm Hp. unfold audience. case_bool_decide; [|done].
  by apply (inv_live W st HI room).
Qed.

(** X6: when a connection disconnects from a room that keeps other
    members, the room stays, with that connection taken out of its member
    mapping and its history untouched, and a [user_left] naming the departed
    user and listing the remaining names is pushed to every other session
    the room's address reaches, so to every remaining member that entered
    the Socket.IO room; when the connection was in no other room, each of
    these gets exactly that one event. *)
Theorem X6_disconnect_notifies_room
    (W : World) (sid room_id name : string) (users : dict string string)
    (st : Server) :
  reachable W st →
  Dict.get room_id (active_rooms st) = Some users →
  Dict.get sid users = Some name → Dict.del sid users ≠ [] →
  let r := step W (EvDisconnect sid) st in
  let notice ts :=
    UserLeft name (name +:+ " has left the room") ts
      (Dict.values (Dict.del sid users)) in
  Dict.get room_id (active_rooms r.1) = Some (Dict.del sid users)
  ∧ Dict.get room_id (messages r.1) = Dict.get room_id (messages st)
  ∧ (∀ s, s ≠ sid → s ∈ audience room_id st → ∃ ts, (s, notice ts) ∈ r.2)
  ∧ (∀ s, s ≠ sid → member s room_id st → s ∈ participants room_id st →
          ∃ ts, (s, notice ts) ∈ r.2)
  ∧ ((∀ r', r' ≠ room_id → ¬ member sid r' st) →
     ∀ s, s ≠ sid → s ∈ audience room_id st →
       filter (λ d, d.1 = s) r.2 = [(s, notice (clock W (clock_reads st)))]).
Proof.
  intros HI%reachable_Inv Hg Hname Hdel r notice.
  pose proof (inv_nodup W st HI) as Hn.
  destruct (handle_disconnect_run W sid st Hn)
    as (st' & out & E & Ha & Hm & _).
  assert (r.2 = disconnect_out W sid (λ r, audience r st) (clock_reads st)
                  (active_rooms st)) as Hout.
  { subst r. unfold step, run. cbn [snd]. apply handle_disconnect_out. }
  assert (purge_room sid (room_id, users)
          = Some (room_id, Dict.del sid users)) as Hp.
  { unfold purge_room. cbn [fst snd]. rewrite Hname.
    by destruct (Dict.del sid users). }
  assert (∀ s, s ∈ audience room_id st → ∃ ts, (s, notice ts) ∈ r.2)
    as Hreached.
  { intros s Hs. rewrite Hout.
    by apply (disconnect_out_room W sid _ room_id users name);
      [apply get_Some_elem | | |]. }
  subst r. unfold step, run in *. rewrite E in *. cbn [fst snd] in *.
  fields. split; [|split; [|split; [|split]]].
  - by rewrite Ha, get_purge, Hg; [simpl; rewrite Hp|].
  - rewrite Hm.
    pose proof (get_filter_keys (λ k, k ∉ emptied sid (active_rooms st))
                  room_id (messages st)) as Hfk.
    cbv beta in Hfk. rewrite Hfk. rewrite decide_True; [done|].
    unfold emptied. intros ([r0 u0] & Hr0 & [Hp0 Hin]%list_elem_of_filter)
                             %list_elem_of_fmap.
    simpl in Hr0. subst r0. apply (elem_of_get _ _ _ Hn) in Hin.
    rewrite Hg in Hin. injection Hin as <-. congruence.
  - intros s _ Hs. by apply Hreached.
  - intros s _ Hs Hp'. apply Hreached. by eapply member_audience.
  - intros Honly s Hne Hs. rewrite Hout.
    destruct (list_elem_of_split _ _ (get_Some_elem _ _ _ Hg))
      as (l1 & l2 & Hsplit).
    assert (∀ r' u', (r', u') ∈ l1 ++ l2 → Dict.get sid u' = None) as Habs.
    { intros r' u' Hin. destruct (Dict.get sid u') as [n|] eqn:Hg'; [|done].
      exfalso. assert ((r', u') ∈ active_rooms st) as Hin'.
      { rewrite Hsplit. apply elem_of_app.
        apply elem_of_app in Hin as [?|?]; [by left | right; by right]. }
      assert (r' ≠ room_id) as Hr'.
      { intros ->. rewrite Hsplit in Hn. unfold Dict.keys in Hn.
        rewrite fmap_app, fmap_cons in Hn.
        apply NoDup_app in Hn as (_ & Hd & [Hr _]%NoDup_cons).
        apply elem_of_app in Hin as [Hin|Hin].
        - apply (Hd room_id); [|left].
          apply list_elem_of_fmap. by exists (room_id, u').
        - apply Hr. apply list_elem_of_fmap. by exists (room_id, u'). }
      apply (Honly r' Hr'). exists u'. split; [|by rewrite Hg'].
      by apply elem_of_get. }
    rewrite Hsplit, disconnect_out_skip
      by (intros r' u' Hin; apply (Habs r' u'), elem_of_app; by left).
    cbn [disconnect_out]. rewrite Hname.
    destruct (Dict.del sid users) as [|x xs] eqn:Hd; [done|].
    rewrite disconnect_out_absent
      by (intros r' u' Hin; apply (Habs r' u'), elem_of_app; by right).
    rewrite app_nil_r. subst notice. cbv beta.
    apply filter_deliver; [apply NoDup_elements|].
    by apply elem_of_elements.
Qed.

(** Bob leaves r1, where Alice stays. *)
Lemma X6_witness :
  filter (λ d, d.1 = "s1") (step demo_world (EvDisconnect "s2") demo_state).2
  = [("s1", UserLeft "bob" "bob has left the room" "2" ["alice"])].
Proof.
  destruct (X6_disconnect_notifies_room demo_world "s2" "r1" "bob"
              [("s1", "alice"); ("s2", "bob")] demo_state)
    as (_ & _ & _ & _ & Hone).
  - exact demo_state_reachable.
  - vm_compute. reflexivity.
  - vm_compute. reflexivity.
  - vm_compute. discriminate.
  - assert (∀ r', r' ≠ "r1" → ¬ member "s2" r' demo_state) as Honly.
    { intros r' Hr' (u & Hg & _).
      assert (active_rooms demo_state
              = [("r1", [("s1", "alice"); ("s2", "bob")])])
        as Har by (vm_compute; reflexivity).
      rewrite Har in Hg. cbn [Dict.get] in Hg.
      destruct (decide ("r1" = r')) as [<-|]; [done | discriminate Hg]. }
    rewrite (Hone Honly "s1").
    + vm_compute. reflexivity.
    + discriminate.
    + apply (bool_decide_eq_true_1 _). vm_compute. reflexivity.
Defined.

(** ** What [on_join] tells whom *)

Lemma set_new {V} (k : string) (v : V) (d : dict string V) :
  Dict.get k d = None → Dict.set k v d = d ++ [(k, v)].
Proof.
  induction d as [|[k0 v0] d IH]; simpl; [done|].
  destruct (decide (k0 = k)); [done|]. intros Hg. f_equal. auto.
Qed.

Lemma members_of_absent sid room_id st :
  ¬ member sid room_id st → Dict.get sid (members_of room_id st) = None.
Proof.
  intros Hno. unfold members_of.
  destruct (Dict.get room_id (active_rooms st)) as [users|] eqn:Hg; [|done].
  simpl. destruct (Dict.get sid users) as [n|] eqn:Hs; [|done].
  exfalso. apply Hno. exists users. split; [done|]. by rewrite Hs.
Qed.

Lemma joined_history sid username room r st :
  Dict.keys (active_rooms st) = Dict.keys (messages st) →
  history_of r (joined sid username room st) = history_of r st.
Proof.
  intros Hk. unfold history_of at 1.
  rewrite joined_messages, join_create_messages by done.
  destruct (decide (room = r)) as [->|]; done.
Qed.

(** X7: when a connection that is not yet in the room joins it
    successfully, it is appended to the room's member mapping; it gets a
    join confirmation whose member list is the previous names, in their
    order, followed by its own; a [user_joined] with that same list,
    authored by "System", is pushed to every other session the room's
    address reaches, so to every previous member that entered the Socket.IO
    room; the joiner itself gets no [user_joined]; and no room's history
    changes. *)
Theorem X7_join_announces_newcomer
    (W : World) (data : JoinData) (sid : string) (st : Server) :
  reachable W st → sid ∈ connected st →
  (on_join W data sid st).1.1 = Return AckSuccess →
  let room_id := default "lobby" (join_room_id data) in
  let username := PyStr.strip (default "" (join_username data)) in
  ¬ member sid room_id st →
  let st' := (on_join W data sid st).1.2 in
  let out := (on_join W data sid st).2 in
  let names := Dict.values (members_of room_id st) ++ [username] in
  let announce :=
    UserJoined "System" (username +:+ " has joined the room") names
      (clock W (clock_reads st)) in
  Dict.get room_id (active_rooms st')
  = Some (members_of room_id st ++ [(sid, username)])
  ∧ (sid, JoinConfirmation username room_id names
            (last_n 50 (history_of room_id st))) ∈ out
  ∧ (∀ s, s ≠ sid → s ∈ audience room_id st → (s, announce) ∈ out)
  ∧ (∀ s, member s room_id st → s ∈ participants room_id st →
          (s, announce) ∈ out)
  ∧ (∀ d, d ∈ out → d.1 = sid → event_name d.2 ≠ "user_joined")
  ∧ (∀ r, history_of r st' = history_of r st).
Proof.
  intros Hreach Hsid Hok room_id username Hnew st' out names announce.
  apply reachable_Inv in Hreach as HI.
  subst st' out. revert Hok.
  rewrite (on_join_cases _ _ _ _ (inv_keys W st HI)). cbv zeta.
  destruct (bad_username _); [done|].
  case_bool_decide as Htaken; [done|].
  case_bool_decide as Hsidroom; [done|]. intros _. cbn [fst snd].
  change (join_room_of data) with room_id.
  change (join_name data) with username.
  rewrite (set_new _ _ _ (members_of_absent _ _ _ Hnew)).
  assert (Dict.values (members_of room_id st ++ [(sid, username)]) = names)
    as ->.
  { unfold names, Dict.values. by rewrite fmap_app. }
  assert (clock_reads (join_add sid username room_id (join_create room_id st))
          = clock_reads st) as ->.
  { unfold join_add, join_create. fields.
    by destruct (Dict.mem room_id (active_rooms st)). }
  fold announce.
  assert (∀ x, participants x (join_add sid username room_id
                                 (join_create room_id st))
               = participants x (joined sid username room_id st)) as Hpx
    by done.
  assert (∀ x s, s ∈ audience x st →
                 s ∈ audience x (join_add sid username room_id
                                   (join_create room_id st))) as Haud.
  { intros x s. unfold audience. case_bool_decide.
    - change (connected (join_add sid username room_id
                           (join_create room_id st)))
        with (connected (joined sid username room_id st)).
      by rewrite joined_connected.
    - rewrite Hpx, joined_participants.
      destruct (decide (room_id = x)) as [->|]; [|done].
      intros ?. apply elem_of_union. by right. }
  split; [|split; [|split; [|split; [|split]]]].
  - rewrite joined_active, decide_True by done.
    by rewrite (set_new _ _ _ (members_of_absent _ _ _ Hnew)).
  - apply elem_of_app. left. apply elem_deliver. split; [done|].
    apply elem_recipients. split; [|by left].
    apply Haud. rewrite audience_room by by eapply live_sid_nonempty.
    by apply (inv_self W st HI).
  - intros s Hne Hs. apply elem_of_app. right. apply elem_deliver.
    split; [done|]. apply elem_recipients. split; [by apply Haud | by right].
  - intros s Hs Hp. apply elem_of_app. right. apply elem_deliver.
    split; [done|]. apply elem_recipients. split.
    + apply Haud. by eapply member_audience.
    + right. intros ->. by apply Hnew.
  - intros [s p] [Hd|Hd]%elem_of_app Hs; simpl in Hs; subst s.
    + apply elem_deliver in Hd as [-> _]. done.
    + apply elem_deliver in Hd as [_ Hd].
      apply elem_recipients in Hd as [_ [?|?]]; done.
  - intros r. by apply joined_history, HI.
Qed.

(** Bob joins r1, where Alice is. *)
Lemma X7_witness :
  ("s1", UserJoined "System" "bob has joined the room" ["alice"; "bob"] "1")
  ∈ (on_join demo_world
       {| join_username := Some " bob "; join_room_id := Some "r1" |}
       "s2" (step demo_world (EvConnect "s2") c1_state).1).2.
Proof.
  destruct (X7_join_announces_newcomer demo_world
              {| join_username := Some " bob "; join_room_id := Some "r1" |}
              "s2" (step demo_world (EvConnect "s2") c1_state).1)
    as (_ & _ & Htold & _).
  - apply reaches_step; [exact c1_state_reachable|].
    apply enabledb_enabled. vm_compute. reflexivity.
  - vm_compute. reflexivity.
  - vm_compute. reflexivity.
  - intros (users & Hg & Hs). vm_compute in Hg. injection Hg as <-.
    vm_compute in Hs. destruct Hs as [x Hx]. discriminate Hx.
  - apply (Htold "s1"); [discriminate|].
    apply (bool_decide_eq_true_1 _). vm_compute. reflexivity.
Defined.

(** X8: when a member of a room whose name is not the id of a live
    session joins that same room again under a name nobody there bears, the
    join succeeds and renames it in place: the room has the same
    connections in the same order, this one under the new name, all others
    under theirs. *)
Theorem X8_rejoin_renames_in_place
    (W : World) (data : JoinData) (sid : string) (st : Server) :
  reachable W st →
  let room_id := default "lobby" (join_room_id data) in
  let username := PyStr.strip (default "" (join_username data)) in
  member sid room_id st → room_id ∉ connected st →
  2 ≤ PyStr.len username ∧ PyStr.len username ≤ 20 →
  username ∉ Dict.values (members_of room_id st) →
  let st' := (on_join W data sid st).1.2 in
  (on_join W data sid st).1.1 = Return AckSuccess
  ∧ ∃ users',
      Dict.get room_id (active_rooms st') = Some users'
      ∧ Dict.keys users' = Dict.keys (members_of room_id st)
      ∧ Dict.get sid users' = Some username
      ∧ ∀ s, s ≠ sid →
             Dict.get s users' = Dict.get s (members_of room_id st).
Proof.
  intros Hreach room_id username Hmem Hnosid Hlen Hfree st'.
  apply reachable_Inv in Hreach as HI. subst st'.
  rewrite (on_join_cases _ _ _ _ (inv_keys W st HI)). cbv zeta.
  change (join_room_of data) with room_id.
  change (join_name data) with username.
  destruct (bad_username username) eqn:Hbad.
  { apply bad_username_spec in Hbad. lia. }
  rewrite bool_decide_eq_false_2 by done.
  rewrite bool_decide_eq_false_2 by done. cbn [fst snd].
  split; [done|].
  exists (Dict.set sid username (members_of room_id st)).
  split; [by rewrite joined_active, decide_True|].
  split.
  - rewrite keys_set. destruct Hmem as (users & Hg & Hs).
    unfold members_of. rewrite Hg. simpl.
    apply mem_true in Hs. by rewrite Hs.
  - split; [by rewrite get_set, decide_True|].
    intros s Hne. by rewrite get_set, decide_False.
Qed.

(** Alice, first of the two members of r1, becomes Alicia. *)
Lemma X8_witness :
  active_rooms
    (on_join demo_world
       {| join_username := Some "alicia"; join_room_id := Some "r1" |}
       "s1" demo_state).1.2
  = [("r1", [("s1", "alicia"); ("s2", "bob")])].
Proof.
  destruct (X8_rejoin_renames_in_place demo_world
              {| join_username := Some "alicia"; join_room_id := Some "r1" |}
              "s1" demo_state)
    as (Hok & _).
  - exact demo_state_reachable.
  - exists [("s1", "alice"); ("s2", "bob")].
    split; [vm_compute; reflexivity|]. exists "alice". vm_compute.
    reflexivity.
  - intros Hin. vm_compute in Hin. discriminate Hin.
  - vm_compute. lia.
  - vm_compute. intros Hin. inversion Hin as [|? ? ? Hin']; subst.
    inversion Hin' as [|? ? ? Hin'']; subst. inversion Hin''.
  - clear Hok. vm_compute. reflexivity.
Defined.

(** ** What the validation guarantees of the stored data *)

(** *** [strip] returns a string it would leave alone *)

Lemma append_assoc' (a b c : string) : (a +:+ b) +:+ c = a +:+ (b +:+ c).
Proof. induction a as [|x a IH]; [done|]. by rewrite !append_cons, IH. Qed.

Lemma append_nil_r' (a : string) : a +:+ "" = a.
Proof. induction a as [|x a IH]; [done|]. by rewrite append_cons, IH. Qed.

Lemma rev_app_spec (s acc : string) :
  String.rev_app s acc = String.rev s +:+ acc.
Proof.
  unfold String.rev. revert acc. induction s as [|c s IH]; intros acc; [done|].
  cbn [String.rev_app]. rewrite (IH (String c acc)), (IH (String c "")).
  by rewrite append_assoc'.
Qed.

Lemma rev_cons (c : ascii) (s : string) :
  String.rev (String c s) = String.rev s +:+ String c "".
Proof. unfold String.rev at 1. cbn [String.rev_app]. apply rev_app_spec. Qed.

Lemma rev_append (a b : string) :
  String.rev (a +:+ b) = String.rev b +:+ String.rev a.
Proof.
  induction a as [|c a IH].
  - by rewrite append_nil_l, append_nil_r'.
  - by rewrite append_cons, !rev_cons, IH, append_assoc'.
Qed.

Lemma rev_involutive (s : string) : String.rev (String.rev s) = s.
Proof.
  induction s as [|c s IH]; [done|].
  by rewrite rev_cons, rev_append, IH.
Qed.

Lemma lstrip_idem (s : string) : PyStr.lstrip (PyStr.lstrip s) = PyStr.lstrip s.
Proof.
  induction s as [|c s IH]; [done|]. cbn [PyStr.lstrip].
  destruct (PyStr.isspace c) eqn:Hc; [done|].
  cbn [PyStr.lstrip]. by rewrite Hc.
Qed.

(** Stripping on the left stops at the first character that is no space. *)
Lemma lstrip_append_stop (u v : string) (c : ascii) :
  PyStr.isspace c = false →
  ∃ u', PyStr.lstrip (u +:+ String c v) = u' +:+ String c v.
Proof.
  intros Hc. induction u as [|x u IH].
  - exists "". rewrite !append_nil_l. cbn [PyStr.lstrip]. by rewrite Hc.
  - rewrite append_cons. cbn [PyStr.lstrip].
    destruct (PyStr.isspace x); [done|].
    exists (String x u). by rewrite append_cons.
Qed.

Lemma rstrip_idem (s : string) : PyStr.rstrip (PyStr.rstrip s) = PyStr.rstrip s.
Proof. unfold PyStr.rstrip. by rewrite rev_involutive, lstrip_idem. Qed.

Lemma lstrip_rstrip_lstrip (s : string) :
  PyStr.lstrip (PyStr.rstrip (PyStr.lstrip s)) = PyStr.rstrip (PyStr.lstrip s).
Proof.
  assert (∀ t, PyStr.lstrip t = t →
               PyStr.lstrip (PyStr.rstrip t) = PyStr.rstrip t) as Hfix.
  { intros [|c t] Ht; [done|].
    assert (PyStr.isspace c = false) as Hc.
    { cbn [PyStr.lstrip] in Ht. destruct (PyStr.isspace c) eqn:Hc; [|done].
      exfalso. clear -Ht.
      assert (∀ u, String.length (PyStr.lstrip u) ≤ String.length u) as Hle.
      { induction u as [|x u IH]; [done|]. cbn [PyStr.lstrip].
        destruct (PyStr.isspace x); simpl; lia. }
      specialize (Hle t). rewrite Ht in Hle. simpl in Hle. lia. }
    unfold PyStr.rstrip. rewrite rev_cons.
    destruct (lstrip_append_stop (String.rev t) "" c Hc) as [u' ->].
    rewrite rev_append. change (String.rev (String c "")) with (String c "").
    rewrite append_cons, append_nil_l. cbn [PyStr.lstrip]. by rewrite Hc. }
  apply Hfix, lstrip_idem.
Qed.

Lemma strip_trimmed (s : string) : trimmed (PyStr.strip s).
Proof.
  unfold trimmed, PyStr.strip.
  by rewrite lstrip_rstrip_lstrip, rstrip_idem.
Qed.

(** *** The data invariant *)

Lemma values_set_elem {V} (k : string) (v x : V) (d : dict string V) :
  x ∈ Dict.values (Dict.set k v d) → x = v ∨ x ∈ Dict.values d.
Proof.
  unfold Dict.values. induction d as [|[k0 v0] d IH]; simpl.
  - intros ->%list_elem_of_singleton. by left.
  - destruct (decide (k0 = k)); simpl.
    + intros [->|?]%elem_of_cons; [by left|]. right. by right.
    + intros [->|Hin]%elem_of_cons; [right; left|].
      destruct (IH Hin) as [?|?]; [by left|]. right. by right.
Qed.

Lemma values_set_NoDup {V} (k : string) (v : V) (d : dict string V) :
  NoDup (Dict.values d) → v ∉ Dict.values d →
  NoDup (Dict.values (Dict.set k v d)).
Proof.
  induction d as [|[k0 v0] d IH]; intros Hnd Hv.
  - apply NoDup_singleton.
  - change (Dict.values ((k0, v0) :: d)) with (v0 :: Dict.values d) in *.
    apply NoDup_cons in Hnd as [Hv0 Hnd].
    apply not_elem_of_cons in Hv as [Hne Hv].
    cbn [Dict.set]. destruct (decide (k0 = k)).
    + change (NoDup (v :: Dict.values d)). by apply NoDup_cons.
    + change (NoDup (v0 :: Dict.values (Dict.set k v d))).
      apply NoDup_cons. split; [|by apply IH].
      intros [->|?]%values_set_elem; done.
Qed.

Lemma keys_set_NoDup {V} (k : string) (v : V) (d : dict string V) :
  NoDup (Dict.keys d) → NoDup (Dict.keys (Dict.set k v d)).
Proof.
  intros Hnd. rewrite keys_set. destruct (Dict.mem k d) eqn:Hm; [done|].
  apply NoDup_app. split; [done|]. split; [|apply NoDup_singleton].
  intros x Hx ->%list_elem_of_singleton.
  by apply mem_false, get_None_keys in Hm.
Qed.

Lemma NoDup_fmap_filter {A B} (f : A → B) (P : A → Prop)
    `{!∀ x, Decision (P x)} (l : list A) :
  NoDup (f <$> l) → NoDup (f <$> filter P l).
Proof.
  induction l as [|x l IH]; [done|]. rewrite fmap_cons, NoDup_cons.
  intros [Hx Hnd]. rewrite filter_cons.
  destruct (decide (P x)); [|by apply IH].
  rewrite fmap_cons. apply NoDup_cons. split; [|by apply IH].
  intros (y & Hy & [_ Hin]%list_elem_of_filter)%list_elem_of_fmap.
  apply Hx. apply list_elem_of_fmap. by exists y.
Qed.

Lemma get_del_Some {V} (k s : string) (v : V) (d : dict string V) :
  Dict.get s (Dict.del k d) = Some v → Dict.get s d = Some v.
Proof. rewrite get_del. by destruct (decide (k = s)). Qed.

Lemma purge_room_cases sid r users e' :
  purge_room sid (r, users) = Some e' →
  e'.2 = users ∨ e'.2 = Dict.del sid users.
Proof.
  unfold purge_room. cbn [fst snd].
  destruct (Dict.get sid users); [|intros [= <-]; by left].
  destruct (Dict.del sid users); [done|]. intros [= <-]. by right.
Qed.

Lemma bad_username_valid (s : string) :
  bad_username (PyStr.strip s) = false → valid_name (PyStr.strip s).
Proof.
  intros Hbad. split; [apply strip_trimmed|].
  assert (¬ (PyStr.len (PyStr.strip s) < 2 ∨ 20 < PyStr.len (PyStr.strip s)))
    as Hn.
  { intros Hc%bad_username_spec. congruence. }
  lia.
Qed.

Lemma DataInv_init : DataInv init.
Proof. split; intros; done. Qed.

Lemma DataInv_disconnect W sid st :
  Inv W st → DataInv st → DataInv (step W (EvDisconnect sid) st).1.
Proof.
  intros HI [Hu Hv Hm].
  destruct (handle_disconnect_run W sid st (inv_nodup W st HI))
    as (st' & out & E & Ha & Hms & _).
  unfold step, run. rewrite E. cbn [fst snd].
  assert (∀ r users',
            Dict.get r (active_rooms st') = Some users' →
            ∃ users, Dict.get r (active_rooms st) = Some users
                     ∧ (users' = users ∨ users' = Dict.del sid users))
    as Hback.
  { intros r users'. rewrite Ha. intros Hg.
    apply get_purge_Some in Hg as (users & Hg & Hp); [|apply HI].
    exists users. split; [done|]. by apply purge_room_cases in Hp. }
  split; fields.
  - intros r users' Hg. destruct (Hback r users' Hg) as (users & Hg' & Hor).
    destruct (Hu r users Hg') as [Hn1 Hn2].
    destruct Hor as [->| ->]; [done|].
    split; by apply NoDup_fmap_filter.
  - intros r users' s name Hg Hs.
    destruct (Hback r users' Hg) as (users & Hg' & Hor).
    apply (Hv r users s name Hg').
    destruct Hor as [->| ->]; [done|]. by eapply get_del_Some.
  - intros r h m. rewrite Hms.
    pose proof (get_filter_keys (λ k, k ∉ emptied sid (active_rooms st))
                  r (messages st)) as Hfk.
    cbv beta in Hfk. rewrite Hfk. destruct (decide _); [|done]. apply Hm.
Qed.

Lemma DataInv_joined W sid data st :
  Inv W st → DataInv st →
  bad_username (join_name data) = false →
  join_name data ∉ Dict.values (members_of (join_room_of data) st) →
  DataInv (joined sid (join_name data) (join_room_of data) st).
Proof.
  intros HI [Hu Hv Hm] Hbad Hfree.
  assert (NoDup (Dict.values (members_of (join_room_of data) st))
          ∧ NoDup (Dict.keys (members_of (join_room_of data) st))) as [Hn1 Hn2].
  { unfold members_of.
    destruct (Dict.get (join_room_of data) (active_rooms st)) as [users|] eqn:Hg.
    - apply (Hu _ _ Hg).
    - split; apply NoDup_nil_2. }
  split.
  - intros r users. rewrite joined_active.
    destruct (decide (join_room_of data = r)); [|apply Hu].
    intros [= <-]. split; [by apply values_set_NoDup | by apply keys_set_NoDup].
  - intros r users s name. rewrite joined_active.
    destruct (decide (join_room_of data = r)); [|apply Hv].
    intros [= <-]. rewrite get_set.
    destruct (decide (sid = s)).
    + intros [= <-]. by apply bad_username_valid.
    + unfold members_of.
      destruct (Dict.get (join_room_of data) (active_rooms st)) as [users|] eqn:Hg;
        [|done].
      apply (Hv _ _ _ _ Hg).
  - intros r h m. rewrite joined_messages.
    rewrite join_create_messages by apply HI.
    destruct (decide (join_room_of data = r)) as [<-|]; [|apply Hm].
    intros [= <-]. unfold history_of.
    destruct (Dict.get (join_room_of data) (messages st)) as [h|] eqn:Hg.
    + apply (Hm _ _ _ Hg).
    + by intros ?%elem_of_nil.
Qed.

Lemma DataInv_same_store st st' :
  active_rooms st' = active_rooms st → messages st' = messages st →
  DataInv st → DataInv st'.
Proof.
  intros Ha Hm [Hu Hv Hms]. split.
  - intros r users. rewrite Ha. apply Hu.
  - intros r users s name. rewrite Ha. apply Hv.
  - intros r h m. rewrite Hm. apply Hms.
Qed.

Lemma DataInv_sent W sid room_id username data st :
  DataInv st →
  username_in (Some room_id) sid st = Some username →
  empty_message data = false →
  DataInv (sent W room_id username data st).
Proof.
  intros [Hu Hv Hm] Huser Hne. unfold sent, append_message.
  split; fields; [done | done |].
  intros r h m. rewrite get_alter.
  destruct (decide (room_id = r)) as [<-|]; [|apply Hm].
  destruct (Dict.get room_id (messages st)) as [h0|] eqn:Hg; [|done].
  simpl. intros [= <-] [Hin|Hin]%elem_of_app; [by apply (Hm _ _ _ Hg)|].
  apply list_elem_of_singleton in Hin as ->.
  cbn [new_message msg_username msg_message msg_file].
  split; [|split; [apply strip_trimmed|]].
  - unfold username_in in Huser. simpl in Huser.
    destruct (Dict.get room_id (active_rooms st)) as [users|] eqn:Hg'; [|done].
    simpl in Huser. by apply (Hv _ _ _ _ Hg' Huser).
  - destruct (send_file data) as [a|] eqn:Hf; [right; by eexists|].
    left. intros Hempty. assert (empty_message data = true) as Habs.
    { apply empty_message_spec. by rewrite Hf. }
    congruence.
Qed.

Lemma DataInv_step W e st :
  Inv W st → DataInv st → DataInv (step W e st).1.
Proof.
  intros HI HD.
  destruct e as [sid|sid|sid data|sid data|sid data|sid data|sid data].
  - destruct HD as [Hu Hv Hm]. by split.
  - by apply DataInv_disconnect.
  - unfold step, run. cbn [fst snd].
    rewrite on_join_cases by apply HI. cbv zeta.
    destruct (bad_username _) eqn:Hbad; [done|].
    case_bool_decide as Htaken; [done|].
    case_bool_decide as Hsidroom; cbn [fst snd].
    + apply (DataInv_same_store
               (joined sid (join_name data) (join_room_of data) st));
        [done | done | by apply (DataInv_joined W)].
    + by apply (DataInv_joined W).
  - unfold step, run. cbn [fst snd].
    rewrite handle_message_cases by apply HI.
    destruct (send_room_id data) as [room_id|]; [|done].
    destruct (username_in _ _ _) as [username|] eqn:Huser; [|done].
    destruct (empty_message data) eqn:Hne; [done|]. cbn [fst snd].
    by apply (DataInv_sent W sid).
  - unfold step, run. by rewrite handle_offer_run.
  - unfold step, run. by rewrite handle_answer_run.
  - unfold step, run. by rewrite handle_ice_candidate_run.
Qed.

Lemma reaches_DataInv W st st' :
  reaches W st st' → Inv W st → DataInv st → DataInv st'.
Proof.
  induction 1 as [|st st' e Hreach IH He]; [done|].
  intros HI HD. apply DataInv_step; [|by apply IH].
  by apply (reaches_Inv W st st').
Qed.

Lemma reachable_DataInv W st : reachable W st → DataInv st.
Proof.
  intros Hr. eapply reaches_DataInv; [exact Hr | apply Inv_init |].
  apply DataInv_init.
Qed.

Lemma room_names_facts W st room_id users :
  reachable W st →
  Dict.get room_id (active_rooms st) = Some users →
  NoDup (Dict.values users)
  ∧ ∀ sid name, Dict.get sid users = Some name →
      2 ≤ PyStr.len name ∧ PyStr.len name ≤ 20.
Proof.
  intros [Hu Hv _]%reachable_DataInv Hg.
  destruct (Hu _ _ Hg) as [? _]. split; [done|].
  intros sid name Hs. apply (Hv _ _ _ _ Hg Hs).
Qed.

(** X9: in every state the server reaches, the names recorded in a room
    are pairwise different and no connection is listed twice in it, and
    every recorded name is trimmed and has 2 to 20 characters. *)
Theorem X9_room_names_unique_and_valid
    (W : World) (st : Server) (room_id : string)
    (users : dict string string) :
  reachable W st →
  Dict.get room_id (active_rooms st) = Some users →
  NoDup (Dict.values users) ∧ NoDup (Dict.keys users)
  ∧ ∀ sid name, Dict.get sid users = Some name →
      PyStr.strip name = name ∧ 2 ≤ PyStr.len name ∧ PyStr.len name ≤ 20.
Proof.
  intros [Hu Hv _]%reachable_DataInv Hg.
  destruct (Hu _ _ Hg) as [? ?]. split; [done|]. split; [done|].
  intros sid name Hs. apply (Hv _ _ _ _ Hg Hs).
Qed.

Lemma X9_witness :
  NoDup (Dict.values [("s1", "alice"); ("s2", "bob")])
  ∧ NoDup (Dict.keys [("s1", "alice"); ("s2", "bob")]).
Proof.
  destruct (X9_room_names_unique_and_valid demo_world demo_state "r1"
              [("s1", "alice"); ("s2", "bob")]) as (H1 & H2 & _).
  - exact demo_state_reachable.
  - vm_compute. reflexivity.
  - split; [exact H1 | exact H2].
Defined.

(** X10: in every state the server reaches, every stored message has a
    trimmed text, has a text or an attachment (never neither), and is
    signed with a name that passed the join validation. *)
Theorem X10_stored_messages_valid
    (W : World) (st : Server) (room_id : string) (h : list Message)
    (m : Message) :
  reachable W st →
  Dict.get room_id (messages st) = Some h → m ∈ h →
  PyStr.strip (msg_message m) = msg_message m
  ∧ (msg_message m ≠ "" ∨ is_Some (msg_file m))
  ∧ PyStr.strip (msg_username m) = msg_username m
  ∧ 2 ≤ PyStr.len (msg_username m) ∧ PyStr.len (msg_username m) ≤ 20.
Proof.
  intros [_ _ Hm]%reachable_DataInv Hg Hin.
  destruct (Hm _ _ _ Hg Hin) as ((? & ? & ?) & ? & ?). done.
Qed.

(** The first of the 60 messages Alice sent. *)
Lemma X10_witness :
  ∃ m, history_of "r1" c7_state !! 0 = Some m
       ∧ PyStr.strip (msg_message m) = msg_message m
       ∧ (msg_message m ≠ "" ∨ is_Some (msg_file m)).
Proof.
  assert (is_Some (history_of "r1" c7_state !! 0)) as [m Hm].
  { vm_compute. by eexists. }
  exists m. split; [exact Hm|].
  destruct (X10_stored_messages_valid demo_world c7_state "r1"
              (history_of "r1" c7_state) m) as (H1 & H2 & _).
  - exact c7_state_reachable.
  - vm_compute. reflexivity.
  - by apply list_elem_of_lookup_2 in Hm.
  - split; [exact H1 | exact H2].
Defined.

(** ** Histories only grow *)

(** X11: across any single event, a room that has a history before and
    after it keeps every stored message in place: the old history is a
    prefix of the new one, which is at most one message longer.  The store
    never drops, reorders or truncates the history of a living room (the
    50-message limit applies to the replay on join only). *)
Theorem X11_history_append_only
    (W : World) (e : Event) (st : Server) (room_id : string)
    (h h' : list Message) :
  reachable W st →
  Dict.get room_id (messages st) = Some h →
  Dict.get room_id (messages (step W e st).1) = Some h' →
  h `prefix_of` h' ∧ length h' ≤ S (length h).
Proof.
  intros HI%reachable_Inv Hg.
  assert (Some h = Some h' → h `prefix_of` h' ∧ length h' ≤ S (length h))
    as Hsame.
  { intros [= <-]. split; [done | lia]. }
  destruct e as [sid|sid|sid data|sid data|sid data|sid data|sid data];
    unfold step, run.
  - unfold handle_connect, ret. cbn [fst snd]. fields. by rewrite Hg.
  - destruct (handle_disconnect_run W sid st (inv_nodup W st HI))
      as (st' & out & E & _ & Hm & _).
    rewrite E. cbn [fst snd]. fields. rewrite Hm.
    pose proof (get_filter_keys (λ k, k ∉ emptied sid (active_rooms st))
                  room_id (messages st)) as Hfk.
    cbv beta in Hfk. rewrite Hfk. destruct (decide _); [|done].
    by rewrite Hg.
  - rewrite on_join_cases by apply HI. cbv zeta.
    destruct (bad_username _); [cbn [fst snd]; by rewrite Hg|].
    case_bool_decide; [cbn [fst snd]; by rewrite Hg|].
    assert (Dict.get room_id
              (messages (join_create (join_room_of data) st)) = Some h)
      as Hkept.
    { rewrite join_create_messages by apply HI.
      destruct (decide (join_room_of data = room_id)) as [->|]; [|done].
      unfold history_of. by rewrite Hg. }
    case_bool_decide; cbn [fst snd].
    + by rewrite recorded_messages, Hkept.
    + by rewrite joined_messages, Hkept.
  - rewrite handle_message_cases by apply HI.
    destruct (send_room_id data) as [r|]; [|cbn [fst snd]; by rewrite Hg].
    destruct (username_in _ _ _) as [username|]; [|cbn [fst snd]; by rewrite Hg].
    destruct (empty_message data); [cbn [fst snd]; by rewrite Hg|]. cbn [fst snd].
    unfold sent, append_message. fields. rewrite get_alter.
    destruct (decide (r = room_id)) as [->|]; [|by rewrite Hg].
    rewrite Hg. simpl. intros [= <-]. split.
    + by apply prefix_app_r.
    + rewrite length_app. simpl. lia.
  - rewrite handle_offer_run. cbn [fst snd]. by rewrite Hg.
  - rewrite handle_answer_run. cbn [fst snd]. by rewrite Hg.
  - rewrite handle_ice_candidate_run. cbn [fst snd]. by rewrite Hg.
Qed.

(** After 60 messages in r1, Bob's join leaves all 60 in place. *)
Lemma X11_witness :
  history_of "r1" c7_state
  `prefix_of`
  history_of "r1"
    (step demo_world
       (EvJoin "s2" {| join_username := Some "bob";
                       join_room_id := Some "r1" |})
       c7_state).1.
Proof.
  destruct (X11_history_append_only demo_world
              (EvJoin "s2" {| join_username := Some "bob";
                              join_room_id := Some "r1" |})
              c7_state "r1" (history_of "r1" c7_state)
              (history_of "r1"
                 (step demo_world
                    (EvJoin "s2" {| join_username := Some "bob";
                                    join_room_id := Some "r1" |})
                    c7_state).1)) as [Hp _].
  - exact c7_state_reachable.
  - vm_compute. reflexivity.
  - vm_compute. reflexivity.
  - exact Hp.
Defined.

(** ** Joining and leaving *)

Lemma del_set_new {V} (k : string) (v : V) (d : dict string V) :
  Dict.get k d = None → Dict.del k (Dict.set k v d) = d.
Proof.
  intros Hg. rewrite (set_new _ _ _ Hg). unfold Dict.del.
  rewrite filter_app, filter_cons_False, filter_nil, app_nil_r
    by (simpl; auto).
  apply filter_all. intros [k' v'] Hin. simpl. intros ->.
  apply get_None_keys in Hg. apply Hg.
  apply list_elem_of_fmap. by exists (k, v').
Qed.

Lemma purge_app sid l1 l2 : purge sid (l1 ++ l2) = purge sid l1 ++ purge sid l2.
Proof. apply omap_app. Qed.

Lemma emptied_app sid l1 l2 :
  emptied sid (l1 ++ l2) = emptied sid l1 ++ emptied sid l2.
Proof. unfold emptied. by rewrite filter_app, fmap_app. Qed.

(** X12: a connection that is in no room, joins one and then
    disconnects leaves the store exactly as it was before the join: the
    room it created is gone with its history, the room it entered has its
    former members in their former order, every history is as it was. *)
Theorem X12_join_then_disconnect_restores_store
    (W : World) (data : JoinData) (sid : string) (st : Server) :
  reachable W st → sid ∈ connected st →
  (∀ r, ¬ member sid r st) →
  (on_join W data sid st).1.1 = Return AckSuccess →
  store (step W (EvDisconnect sid) (on_join W data sid st).1.2).1 = store st.
Proof.
  intros Hreach Hsid Hno Hok. apply reachable_Inv in Hreach as HI.
  revert Hok. rewrite (on_join_cases _ _ _ _ (inv_keys W st HI)). cbv zeta.
  destruct (bad_username _); [done|].
  case_bool_decide as Htaken; [done|].
  case_bool_decide as Hsidroom; [done|]. intros _. cbn [fst snd].
  set (room := join_room_of data). set (u := join_name data).
  pose proof (Inv_joined W sid u room st HI Hsid) as HI'.
  destruct (handle_disconnect_run W sid (joined sid u room st)
              (inv_nodup W _ HI')) as (st' & out & E & Ha & Hm & _).
  unfold step, run. rewrite E. cbn [fst snd]. unfold store. fields.
  rewrite Ha, Hm. clear E Ha Hm.
  pose proof (not_member_absent W sid st HI Hno) as Habs.
  pose proof (members_of_absent sid room st (Hno room)) as Hnew.
  assert (active_rooms (joined sid u room st)
          = Dict.alter (Dict.set sid u) room
              (active_rooms (join_create room st))) as -> by done.
  rewrite joined_messages. unfold join_create.
  destruct (Dict.mem room (active_rooms st)) eqn:Hmem.
  - apply mem_true in Hmem as [users Hg].
    destruct (list_elem_of_split _ _ (get_Some_elem _ _ _ Hg))
      as (l1 & l2 & Hsplit).
    pose proof (inv_nodup W st HI) as Hn. rewrite Hsplit in Hn.
    unfold Dict.keys in Hn. rewrite fmap_app, fmap_cons in Hn.
    apply NoDup_app in Hn as (_ & Hd & [Hr _]%NoDup_cons).
    assert (room ∉ Dict.keys l1) as Hl1.
    { intros Hin. apply (Hd _ Hin). left. }
    assert (∀ r' u', (r', u') ∈ l1 → Dict.get sid u' = None) as Habs1.
    { intros r' u' Hin. apply (Habs r' u'). rewrite Hsplit.
      apply elem_of_app. by left. }
    assert (∀ r' u', (r', u') ∈ l2 → Dict.get sid u' = None) as Habs2.
    { intros r' u' Hin. apply (Habs r' u'). rewrite Hsplit.
      apply elem_of_app. right. by right. }
    assert (users ≠ []) as Hne by (by eapply (inv_nonempty W st HI)).
    assert (Dict.get sid users = None) as Hsu.
    { unfold members_of in Hnew. by rewrite Hg in Hnew. }
    assert (purge_room sid (room, Dict.set sid u users) = Some (room, users))
      as Hp.
    { unfold purge_room. cbn [fst snd].
      rewrite get_set, decide_True, (del_set_new _ _ _ Hsu) by done.
      by destruct users. }
    rewrite Hsplit. rewrite !alter_app_fresh by done.
    rewrite purge_app, emptied_app.
    change ((room, Dict.set sid u users) :: l2)
      with ([(room, Dict.set sid u users)] ++ l2).
    rewrite purge_app, emptied_app.
    destruct (purge_absent sid l1 Habs1) as [-> ->].
    destruct (purge_absent sid l2 Habs2) as [-> ->].
    unfold purge at 1. cbn [omap list_omap]. rewrite Hp.
    rewrite emptied_cons, Hp. cbn [app].
    f_equal. apply filter_all. intros ? _. apply not_elem_of_nil.
  - apply mem_false in Hmem. fields.
    rewrite (set_new _ _ _ Hmem), alter_app_fresh
      by by apply get_None_keys.
    assert (Dict.get room (messages st) = None) as Hmsg.
    { apply get_None_keys. rewrite <- (inv_keys W st HI).
      by apply get_None_keys. }
    rewrite (set_new _ _ _ Hmsg).
    assert (purge_room sid (room, Dict.set sid u []) = None) as Hp.
    { unfold purge_room. cbn [fst snd Dict.set Dict.get].
      rewrite decide_True by done. unfold Dict.del.
      by rewrite filter_cons_False by (simpl; auto). }
    rewrite purge_app, emptied_app.
    destruct (purge_absent sid _ Habs) as [-> ->].
    unfold purge. cbn [omap list_omap]. rewrite emptied_cons, Hp.
    cbn [emptied filter fmap list_fmap app fst]. rewrite app_nil_r.
    f_equal. rewrite filter_app, filter_cons_False, filter_nil, app_nil_r.
    + apply filter_all. intros [k hk] Hin. simpl.
      intros Hk%list_elem_of_singleton.
      apply get_None_keys in Hmsg. apply Hmsg.
      apply list_elem_of_fmap. exists (k, hk). by split.
    + simpl. intros Hc. apply Hc. left.
Qed.

(** Carol connects, joins r1 beside Alice and Bob, and disconnects. *)
Lemma X12_witness :
  let st := (step demo_world (EvConnect "s3") demo_state).1 in
  store
    (step demo_world (EvDisconnect "s3")
       (on_join demo_world
          {| join_username := Some "carol"; join_room_id := Some "r1" |}
          "s3" st).1.2).1
  = store demo_state.
Proof.
  intros st.
  rewrite (X12_join_then_disconnect_restores_store demo_world
             {| join_username := Some "carol"; join_room_id := Some "r1" |}
             "s3" st).
  - vm_compute. reflexivity.
  - apply reaches_step; [exact demo_state_reachable|].
    apply enabledb_enabled. vm_compute. reflexivity.
  - vm_compute. reflexivity.
  - intros r (users & Hg & Hs).
    assert (active_rooms st = [("r1", [("s1", "alice"); ("s2", "bob")])])
      as Har by (vm_compute; reflexivity).
    rewrite Har in Hg. cbn [Dict.get] in Hg.
    destruct (decide ("r1" = r)); [|discriminate Hg].
    injection Hg as <-. vm_compute in Hs. destruct Hs as [x Hx].
    discriminate Hx.
  - vm_compute. reflexivity.
Defined.

(** ** Who can be reached *)

Lemma disconnect_out_recipient W sid aud reads rest d :
  d ∈ disconnect_out W sid aud reads rest → ∃ room, d.1 ∈ aud room.
Proof.
  revert reads. induction rest as [|[r u] rest IH]; intros reads Hd.
  - by apply elem_of_nil in Hd.
  - cbn [disconnect_out] in Hd.
    destruct (Dict.get sid u) as [n|]; [|by eapply IH].
    destruct (Dict.del sid u) as [|x xs]; [by eapply IH|].
    apply elem_of_app in Hd as [Hd|Hd]; [|by eapply IH].
    destruct d as [s p]. apply elem_deliver in Hd as [_ Hs].
    exists r. by apply elem_of_elements in Hs.
Qed.

(** X13: whatever the server pushes while it handles an event goes to
    connections that are live when the event arrives, never to a
    connection that is not (or no longer) registered. *)
Theorem X13_pushes_reach_live_sessions_only
    (W : World) (e : Event) (st : Server) (d : Delivery) :
  reachable W st → enabled e st →
  d ∈ (step W e st).2 → d.1 ∈ connected st.
Proof.
  intros HI%reachable_Inv He Hd. destruct d as [s p]. cbn [fst].
  destruct e as [sid|sid|sid data|sid data|sid data|sid data|sid data];
    unfold step, run in Hd; cbn [fst snd] in Hd.
  - by apply elem_of_nil in Hd.
  - rewrite handle_disconnect_out in Hd.
    apply disconnect_out_recipient in Hd as [room Hs].
    by apply (audience_connected W room).
  - rewrite on_join_cases in Hd by apply HI. cbv zeta in Hd.
    destruct (bad_username _); [by apply elem_of_nil in Hd|].
    case_bool_decide; [by apply elem_of_nil in Hd|].
    case_bool_decide; [by apply elem_of_nil in Hd|]. cbn [snd] in Hd.
    pose proof (Inv_joined W sid (join_name data) (join_room_of data) st
                  HI He) as HI'.
    assert (∀ x, s ∈ audience x (join_add sid (join_name data)
                                   (join_room_of data)
                                   (join_create (join_room_of data) st))
                 → s ∈ connected st) as Hpx.
    { intros x Hs.
      rewrite <- (joined_connected sid (join_name data) (join_room_of data)).
      by apply (audience_connected W x). }
    apply elem_of_app in Hd as [Hd|Hd];
      apply elem_deliver in Hd as [_ Hd];
      apply elem_recipients in Hd as [Hd _]; by eapply Hpx.
  - rewrite handle_message_cases in Hd by apply HI.
    destruct (send_room_id data) as [r|]; [|by apply elem_of_nil in Hd].
    destruct (username_in _ _ _) as [username|];
      [|by apply elem_of_nil in Hd].
    destruct (empty_message data); [by apply elem_of_nil in Hd|].
    cbn [snd] in Hd. apply elem_deliver in Hd as [_ Hd].
    apply elem_recipients in Hd as [Hd _].
    by apply (audience_connected W r s st HI).
  - rewrite handle_offer_run in Hd. cbn [snd] in Hd.
    apply elem_deliver in Hd as [_ [Hd _]%elem_recipients].
    by eapply (audience_connected W).
  - rewrite handle_answer_run in Hd. cbn [snd] in Hd.
    apply elem_deliver in Hd as [_ [Hd _]%elem_recipients].
    by eapply (audience_connected W).
  - rewrite handle_ice_candidate_run in Hd. cbn [snd] in Hd.
    apply elem_deliver in Hd as [_ [Hd _]%elem_recipients].
    by eapply (audience_connected W).
Qed.

(** Bob is gone; Alice's message reaches her, a live session. *)
Lemma X13_witness :
  let st := (step demo_world (EvDisconnect "s2") demo_state).1 in
  "s1" ∈ connected st.
Proof.
  intros st.
  apply (X13_pushes_reach_live_sessions_only demo_world
           (EvSendMessage "s1" {| send_room_id := Some "r1";
                                  send_message := Some "hi";
                                  send_file := None |})
           st
           ("s1", NewMessage {| msg_id := "0"; msg_username := "alice";
                                msg_message := "hi"; msg_timestamp := "3";
                                msg_file := None |})).
  - apply reaches_step; [exact demo_state_reachable|].
    apply enabledb_enabled. vm_compute. reflexivity.
  - apply enabledb_enabled. vm_compute. reflexivity.
  - apply (list_elem_of_lookup_2 _ 0). vm_compute. reflexivity.
Defined.

(** ** Signaling relay: the other targets *)

(** X14: a signaling request that names no target at all is not
    dropped: the event comes back to its sender, and to the sender alone
    when no room bears the sender's connection id. *)
Theorem X14_relay_without_target_echoes
    (W : World) (st : Server) (sid : string)
    (odata : OfferData) (adata : AnswerData) (cdata : CandidateData) :
  reachable W st → sid ∈ connected st →
  Dict.get sid (active_rooms st) = None →
  offer_target_sid odata = None →
  answer_target_sid adata = None →
  candidate_target_sid cdata = None →
  (handle_offer odata sid st).2
  = [(sid, WebrtcOffer (offer_offer odata) sid (caller_username odata sid st))]
  ∧ (handle_answer adata sid st).2
    = [(sid, WebrtcAnswer (answer_answer adata) sid)]
  ∧ (handle_ice_candidate cdata sid st).2
    = [(sid, IceCandidate (candidate_candidate cdata) sid)].
Proof.
  intros HI%reachable_Inv Hc Hg Ho Ha Hcd.
  rewrite handle_offer_run, handle_answer_run, handle_ice_candidate_run.
  rewrite Ho, Ha, Hcd. cbn [snd from_option id].
  rewrite !recipients_all, (audience_of_session W sid st HI Hc Hg).
  by rewrite elements_singleton.
Qed.

Lemma X14_witness :
  (handle_answer {| answer_target_sid := None; answer_answer := Some "sdp" |}
     "s1" demo_state).2
  = [("s1", WebrtcAnswer (Some "sdp") "s1")].
Proof.
  destruct (X14_relay_without_target_echoes demo_world demo_state "s1"
              {| offer_target_sid := None; offer_offer := None;
                 offer_room_id := None |}
              {| answer_target_sid := None; answer_answer := Some "sdp" |}
              {| candidate_target_sid := None;
                 candidate_candidate := None |})
    as (_ & Hanswer & _).
  - exact demo_state_reachable.
  - vm_compute. reflexivity.
  - vm_compute. reflexivity.
  - reflexivity.
  - reflexivity.
  - reflexivity.
  - exact Hanswer.
Defined.

(** X15: a signaling request is relayed to the sessions its target id
    addresses, to all of them and to nobody else.  The empty target id
    addresses every live session.  A target id that is not empty and is the
    id of no live connection addresses nobody but members of the room of
    that name, and every member of that room that entered its Socket.IO
    room. *)
Theorem X15_relay_to_room_id
    (W : World) (st : Server) (sid target s : string)
    (odata : OfferData) (adata : AnswerData) (cdata : CandidateData) :
  reachable W st →
  offer_target_sid odata = Some target →
  answer_target_sid adata = Some target →
  candidate_target_sid cdata = Some target →
  ((s, WebrtcOffer (offer_offer odata) sid (caller_username odata sid st))
     ∈ (handle_offer odata sid st).2 ↔ s ∈ audience target st)
  ∧ ((s, WebrtcAnswer (answer_answer adata) sid)
       ∈ (handle_answer adata sid st).2 ↔ s ∈ audience target st)
  ∧ ((s, IceCandidate (candidate_candidate cdata) sid)
       ∈ (handle_ice_candidate cdata sid st).2 ↔ s ∈ audience target st)
  ∧ (target = "" → s ∈ audience target st ↔ s ∈ connected st)
  ∧ (target ≠ "" → target ∉ connected st →
     s ∈ audience target st → member s target st)
  ∧ (target ≠ "" → s ∈ audience target st ↔ s ∈ participants target st).
Proof.
  intros HI%reachable_Inv Ho Ha Hcd.
  rewrite handle_offer_run, handle_answer_run, handle_ice_candidate_run.
  rewrite Ho, Ha, Hcd. cbn [snd from_option id].
  rewrite !elem_deliver, !elem_recipients.
  split; [tauto|]. split; [tauto|]. split; [tauto|].
  split; [by intros ->|]. split.
  - intros Hne Hc. rewrite audience_room by done.
    intros [Hs [->|?]]%(inv_registry W st HI); done.
  - intros Hne. by rewrite audience_room.
Qed.

Lemma X15_witness :
  ("s2", WebrtcAnswer (Some "sdp") "s1")
  ∈ (handle_answer {| answer_target_sid := Some "r1";
                      answer_answer := Some "sdp" |} "s1" demo_state).2.
Proof.
  destruct (X15_relay_to_room_id demo_world demo_state "s1" "r1" "s2"
              {| offer_target_sid := Some "r1"; offer_offer := None;
                 offer_room_id := None |}
              {| answer_target_sid := Some "r1"; answer_answer := Some "sdp" |}
              {| candidate_target_sid := Some "r1";
                 candidate_candidate := None |})
    as (_ & Hanswer & _).
  - exact demo_state_reachable.
  - reflexivity.
  - reflexivity.
  - reflexivity.
  - apply Hanswer. apply (bool_decide_eq_true_1 _). vm_compute. reflexivity.
Defined.

(** ** What a stored message says, and who sees it *)

(** X16: the message a successful [handle_message] stores and
    broadcasts is signed with the name under which the sender is recorded
    in that room (the request cannot choose it), carries the trimmed text
    and the attachment descriptor as given; it is pushed to live sessions
    only and, when the room's name is not empty, to nobody but members of
    the room and, if there is one, the connection whose id is the room's
    id. *)
Theorem X16_message_author_and_audience
    (W : World) (data : SendData) (sid room_id : string) (st : Server)
    (d : Delivery) :
  reachable W st →
  send_room_id data = Some room_id →
  (handle_message W data sid st).1.1 = Return AckSuccess →
  d ∈ (handle_message W data sid st).2 →
  (∃ m, d.2 = NewMessage m
        ∧ Some (msg_username m) = username_in (Some room_id) sid st
        ∧ msg_message m = PyStr.strip (default "" (send_message data))
        ∧ msg_file m = send_file data
        ∧ m ∈ history_of room_id (handle_message W data sid st).1.2)
  ∧ d.1 ∈ connected st
  ∧ (room_id ≠ "" → member d.1 room_id st ∨ d.1 = room_id).
Proof.
  intros HI%reachable_Inv Hroom. destruct d as [s p].
  rewrite (handle_message_cases _ _ _ _ (inv_keys W st HI)), Hroom.
  destruct (username_in _ _ _) as [username|] eqn:Huser; [|done].
  destruct (empty_message data); [done|]. cbn [fst snd]. intros _ Hd.
  apply elem_deliver in Hd as [-> Hs].
  apply elem_recipients in Hs as [Hs _].
  change (s ∈ audience room_id st) in Hs.
  split; [|split].
  - eexists. split; [done|]. cbn [new_message msg_username msg_message msg_file].
    repeat split; try done.
    unfold history_of, sent, append_message. fields. rewrite get_alter.
    rewrite decide_True by done.
    destruct (Dict.get room_id (messages st)) as [h|] eqn:Hh.
    + simpl. apply elem_of_app. right. left.
    + exfalso. apply get_None_keys in Hh. rewrite <- (inv_keys W st HI) in Hh.
      apply get_None_keys in Hh. unfold username_in in Huser. simpl in Huser.
      by rewrite Hh in Huser.
  - by apply (audience_connected W room_id).
  - intros Hne. rewrite audience_room in Hs by done.
    apply (inv_registry W st HI) in Hs as [_ [->|?]]; [by right | by left].
Qed.

Lemma X16_witness :
  "s2" ∈ connected demo_state ∧ (member "s2" "r1" demo_state ∨ "s2" = "r1").
Proof.
  destruct (X16_message_author_and_audience demo_world
              {| send_room_id := Some "r1"; send_message := Some " hi ";
                 send_file := None |} "s1" "r1" demo_state
              ("s2", NewMessage {| msg_id := "0"; msg_username := "alice";
                                   msg_message := "hi"; msg_timestamp := "2";
                                   msg_file := None |})) as (_ & Hlive & H).
  - exact demo_state_reachable.
  - reflexivity.
  - vm_compute. reflexivity.
  - apply (list_elem_of_lookup_2 _ 1). vm_compute. reflexivity.
  - split; [exact Hlive|]. apply H. discriminate.
Defined.

(** ** A name is taken only while its bearer is in the room *)

Lemma name_freed (sid name : string) (users : dict string string) :
  NoDup (Dict.values users) → Dict.get sid users = Some name →
  name ∉ Dict.values (Dict.del sid users).
Proof.
  unfold Dict.del. induction users as [|[k0 v0] users IH]; [done|].
  change (Dict.values ((k0, v0) :: users)) with (v0 :: Dict.values users).
  rewrite NoDup_cons. intros [Hv0 Hnd]. cbn [Dict.get].
  rewrite filter_cons. cbn [fst].
  assert (∀ x, x ∈ Dict.values (filter (λ p, p.1 ≠ sid) users) →
               x ∈ Dict.values users) as Hsub.
  { intros x ([k v] & -> & [_ Hin]%list_elem_of_filter)%list_elem_of_fmap.
    apply list_elem_of_fmap. by exists (k, v). }
  destruct (decide (k0 = sid)) as [->|Hne].
  - intros [= ->]. rewrite decide_False by (intros Hc; by apply Hc).
    intros Hin%Hsub. done.
  - intros Hg. rewrite decide_True by done.
    change (name ∉ v0 :: Dict.values (filter (λ p, p.1 ≠ sid) users)).
    apply not_elem_of_cons. split; [|by apply IH].
    intros ->. apply Hv0. apply get_Some_elem in Hg.
    apply list_elem_of_fmap. by exists (sid, v0).
Qed.

(** X17: once a member has disconnected, the name it bore in a room is
    free again: a join to that room under that very name, by any
    connection, succeeds, provided the room's name is not the id of a
    session that is still live. *)
Theorem X17_name_free_after_disconnect
    (W : World) (st : Server) (sid sid' room_id name : string)
    (users : dict string string) (data : JoinData) :
  reachable W st →
  Dict.get room_id (active_rooms st) = Some users →
  Dict.get sid users = Some name →
  default "lobby" (join_room_id data) = room_id →
  PyStr.strip (default "" (join_username data)) = name →
  (room_id ∈ connected st → room_id = sid) →
  (on_join W data sid' (step W (EvDisconnect sid) st).1).1.1
  = Return AckSuccess.
Proof.
  intros Hreach Hg Hs Hroom Hname Hnosid.
  apply reachable_Inv in Hreach as HI.
  destruct (room_names_facts W st room_id users Hreach Hg) as (Hn1 & Hvalid).
  pose proof (Inv_disconnect W sid st HI) as HI'.
  rewrite (on_join_cases _ _ _ _ (inv_keys W _ HI')). cbv zeta.
  change (join_name data) with (PyStr.strip (default "" (join_username data))).
  change (join_room_of data) with (default "lobby" (join_room_id data)).
  rewrite Hname, Hroom.
  destruct (bad_username name) eqn:Hbad.
  { apply bad_username_spec in Hbad. specialize (Hvalid sid name Hs). lia. }
  destruct (handle_disconnect_run W sid st (inv_nodup W st HI))
    as (st' & out & E & Ha & _ & Hc & _).
  rewrite bool_decide_eq_false_2.
  - rewrite bool_decide_eq_false_2; [done|].
    unfold step, run. rewrite E. cbn [fst snd]. fields. rewrite Hc.
    rewrite elem_of_difference, elem_of_singleton. intros [? ?]. auto.
  - unfold members_of, step, run. rewrite E. cbn [fst snd]. fields.
    rewrite Ha, get_purge, Hg by apply HI. simpl.
    destruct (purge_room sid (room_id, users)) as [e'|] eqn:Hp.
    + unfold purge_room in Hp. cbn [fst snd] in Hp. rewrite Hs in Hp.
      destruct (Dict.del sid users) as [|x xs] eqn:Hd; [discriminate Hp|].
      injection Hp as <-. cbn [fmap option_fmap option_map snd from_option id].
      rewrite <- Hd. by apply name_freed.
    + simpl. apply not_elem_of_nil.
Qed.

(** Bob leaves r1; Carol joins it as bob. *)
Lemma X17_witness :
  (on_join demo_world
     {| join_username := Some "bob"; join_room_id := Some "r1" |} "s3"
     (step demo_world (EvDisconnect "s2") demo_state).1).1.1
  = Return AckSuccess.
Proof.
  apply (X17_name_free_after_disconnect demo_world demo_state "s2" "s3" "r1"
           "bob" [("s1", "alice"); ("s2", "bob")]).
  - exact demo_state_reachable.
  - vm_compute. reflexivity.
  - vm_compute. reflexivity.
  - reflexivity.
  - vm_compute. reflexivity.
  - intros Hin. vm_compute in Hin. discriminate Hin.
Defined.

(** ** The outcomes of a join, all of them *)



(** ** A successful send, in every reachable state *)

(** X19: a successful [handle_message] appends exactly one new message to
    the history of the target room (and touches nothing else in the store);
    the id of that message differs from the id of every message stored in
    any earlier state, provided the UUID generator never repeats itself; and
    the same message is pushed as [new_message], and nothing else is pushed,
    to exactly the sessions the room's address reaches: among them the
    sender and every member that entered the Socket.IO room. *)
Theorem X19_send_appends_and_broadcasts
    (W : World) (st0 st : Server) (sid : string) (data : SendData) :
  Inj (=) (=) (uuid_gen W) →
  reachable W st0 → reaches W st0 st →
  (handle_message W data sid st).1.1 = Return AckSuccess →
  let st' := (handle_message W data sid st).1.2 in
  let out := (handle_message W data sid st).2 in
  ∃ room_id m,
    send_room_id data = Some room_id
    ∧ member sid room_id st
    ∧ active_rooms st' = active_rooms st
    ∧ Dict.get room_id (messages st') = Some (history_of room_id st ++ [m])
    ∧ (∀ r, r ≠ room_id →
            Dict.get r (messages st') = Dict.get r (messages st))
    ∧ (∀ r h m', Dict.get r (messages st0) = Some h → m' ∈ h →
                 msg_id m' ≠ msg_id m)
    ∧ (∀ s, (s, NewMessage m) ∈ out ↔ s ∈ audience room_id st)
    ∧ (∀ s, member s room_id st → s ∈ participants room_id st →
            (s, NewMessage m) ∈ out)
    ∧ (∀ d, d ∈ out → d.2 = NewMessage m).
Proof.
  intros Hinj Hreach0 Hreach Hok st' out.
  apply reachable_Inv in Hreach0 as HI0.
  pose proof (reaches_Inv W st0 st Hreach HI0) as HI.
  pose proof (reaches_uuid_draws W st0 st Hreach HI0) as Hdraws.
  subst st' out. revert Hok.
  rewrite (handle_message_cases _ _ _ _ (inv_keys W st HI)).
  destruct (send_room_id data) as [room_id|] eqn:Hroom; [|done].
  destruct (username_in _ _ _) as [username|] eqn:Huser; [|done].
  destruct (empty_message data); [done|]. intros _. cbn [fst snd].
  assert (member sid room_id st) as Hmem.
  { unfold username_in, member in *. simpl in Huser.
    destruct (Dict.get room_id (active_rooms st)) as [users|]; [|done].
    exists users. split; [done|]. simpl in Huser. by rewrite Huser. }
  assert (is_Some (Dict.get room_id (messages st))) as [h Hh].
  { destruct Hmem as (users & Hg & _).
    apply not_eq_None_Some. rewrite get_None_keys, <- (inv_keys W st HI).
    rewrite <- get_None_keys. by rewrite Hg. }
  exists room_id, (new_message W st username data).
  split; [done|]. split; [done|]. split; [done|].
  assert (∀ s, (s, NewMessage (new_message W st username data))
               ∈ deliver (NewMessage (new_message W st username data))
                   (recipients room_id sid true
                      (sent W room_id username data st))
               ↔ s ∈ audience room_id st) as Hto.
  { intros s. rewrite elem_deliver, elem_recipients.
    change (audience room_id (sent W room_id username data st))
      with (audience room_id st).
    split; [by intros [_ [? _]] | intros ?; split; [done|]; split; auto]. }
  unfold sent at 1 2, append_message. fields.
  split; [|split; [|split; [|split; [|split]]]].
  - rewrite get_alter, decide_True by done. unfold history_of.
    by rewrite Hh.
  - intros r Hne. by rewrite get_alter, decide_False.
  - intros r h0 m' Hg Hm' Heq.
    destruct (inv_ids W st0 HI0 r h0 m' Hg Hm') as (k & Hk & Hid).
    rewrite Hid in Heq. cbn [msg_id new_message] in Heq.
    apply Hinj in Heq. lia.
  - exact Hto.
  - intros s Hs Hp. apply Hto. by eapply member_audience.
  - intros [s p] Hd. unfold deliver in Hd.
    by apply list_elem_of_fmap in Hd as (? & [= -> ->] & _).
Qed.

(** Alice says hi: one message more in r1, pushed to both. *)
Lemma X19_witness :
  let data := {| send_room_id := Some "r1"; send_message := Some " hi ";
                 send_file := None |} in
  ∃ m,
    Dict.get "r1" (messages (handle_message demo_world data "s1" demo_state).1.2)
    = Some (history_of "r1" demo_state ++ [m])
    ∧ msg_message m = "hi"
    ∧ (handle_message demo_world data "s1" demo_state).2
      = [("s1", NewMessage m); ("s2", NewMessage m)].
Proof.
  intros data.
  destruct (X19_send_appends_and_broadcasts demo_world demo_state demo_state
              "s1" data demo_uuid_inj demo_state_reachable
              (reaches_refl demo_world demo_state))
    as (room_id & m & Hroom & _ & _ & Hh & _).
  { vm_compute. reflexivity. }
  injection Hroom as <-.
  exists m. split; [exact Hh|].
  assert (m = {| msg_id := "0"; msg_username := "alice"; msg_message := "hi";
                 msg_timestamp := "2"; msg_file := None |}) as ->.
  { assert (Some (history_of "r1" demo_state ++ [m])
            = Some (history_of "r1" demo_state
                    ++ [{| msg_id := "0"; msg_username := "alice";
                           msg_message := "hi"; msg_timestamp := "2";
                           msg_file := None |}])) as Heq.
    { rewrite <- Hh. vm_compute. reflexivity. }
    injection Heq as Heq. exact Heq. }
  split; [reflexivity|]. vm_compute. reflexivity.
Defined.
